(** * Bar-by-bar backtest engine ([src/backtest/engine.py])

    A shallow embedding of [backtest] and of the position sizer
    [atr_position_size] ([src/risk/position_sizing.py]).

    Python's [float] is IEEE-754 binary64 with round-to-nearest-even; so is
    Rocq's primitive [float], and the embedding uses it directly: every
    [+], [-], [*], [/], [<=], [abs] below is the same operation on the same
    bits as in the interpreter (an overflow gives an infinity, an invalid
    operation a NaN; the only division by zero Python would raise on cannot
    happen, every divisor being floored away from zero).  Python's [int] is
    [Z]; bar indices, which come out of [range(len(df))], are [nat].

    The data frame [df] enters through its close column, the frame [ind]
    through its ["atr"] column if it has one, and the signal series through
    the integers [int(signal.iloc[i])] yields. *)

From Stdlib Require Import String.
From Stdlib Require Import ZArith List Bool Lia.
From Stdlib Require Import Floats.
Import ListNotations.

Set Warnings "-inexact-float".
Local Open Scope float_scope.

(** ** Python primitives used by the engine *)

Module Py.

(** [max(a, b)] on two arguments: the builtin keeps the first argument
    unless the second compares strictly greater, so a NaN second argument
    never wins. *)
Definition max (a b : float) : float := if a <? b then b else a.

(** Conversion of an [int] operand in mixed [int]/[float] arithmetic:
    the nearest binary64 value, for an [int] within the binary64 range.
    Beyond it, about [1.8e308], the interpreter raises [OverflowError]
    where this gives an infinity: [Config.div_10000] tests for it, and the
    engine converts signal values only, which [int(signal.iloc[i])] takes
    from a 64-bit column. *)
Definition of_int (z : Z) : float :=
  SF2Prim (binary_normalize prec emax z 0%Z false).

(** [np.isnan]. *)
Definition isnan (x : float) : bool := is_nan x.

(** The exceptions the engine can raise. *)
Inductive exn : Type :=
| IndexError.

(** A computation either returns a value or raises. *)
Inductive result (A : Type) : Type :=
| Ok (a : A)
| Raise (e : exn).
Arguments Ok {A} a.
Arguments Raise {A} e.

Definition bind {A B : Type} (m : result A) (k : A -> result B) : result B :=
  match m with
  | Ok a => k a
  | Raise e => Raise e
  end.

(** Positional indexing [xs[i]] / [s.iloc[i]] for [0 <= i]: out of range
    raises [IndexError]. *)
Definition index {A : Type} (xs : list A) (i : nat) : result A :=
  match nth_error xs i with
  | Some x => Ok x
  | None => Raise IndexError
  end.

End Py.

Notation "x <- m ;; k" := (Py.bind m (fun x => k))
  (at level 61, m at next level, right associativity).

(** ** Position sizer: [atr_position_size] *)

Definition atr_position_size
    (balance risk_per_trade atr price stop_mult : float) : float :=
  let risk_per_unit := Py.max 1e-8 (atr * stop_mult) in
  let risk_amount := balance * risk_per_trade in
  let qty := risk_amount / risk_per_unit in
  Py.max 0 qty.

(** ** Fee and slippage keys of a configuration: [normalize_fee_slippage]

    [src/utils/config.py], called by [run_once] in
    [src/backtest/cpu_entry.py] to find the two rates it hands to
    [backtest]. *)

Module Config.

(** What a division can raise: [TypeError], [OverflowError], or whatever
    else an object's own division raises. *)
Inductive exn : Type :=
| TypeError
| OverflowError
| OtherError (name : string).

(** The values of a configuration dict, as far as the function tells them
    apart: an [int] (a [bool] is the [int] 0 or 1 in all that is done
    here), a [float], or any other object.  All that is ever done with
    another object is to divide it by [10000.0], so it carries what that
    division does: raise ([VOther]: a [str], [None], a [list] or a [dict]
    raise [TypeError]) or return an object ([VQuot]: a [Fraction] returns
    a [float]). *)
Inductive value : Type :=
| VInt (z : Z)
| VFloat (x : float)
| VOther (repr : string) (raises : exn)
| VQuot (repr : string) (quotient : value).

(** A dict with string keys, in insertion order. *)
Definition dict : Type := list (string * value).

(** [d.get(k)]: the value under [k], if any. *)
Fixpoint get (d : dict) (k : string) : option value :=
  match d with
  | [] => None
  | (k', v) :: d' => if String.eqb k' k then Some v else get d' k
  end.

(** [k in d] *)
Definition contains (d : dict) (k : string) : bool :=
  match get d k with
  | Some _ => true
  | None => false
  end.

(** [d[k] = v]: replaces the value of a present key where it stands,
    appends an absent one. *)
Fixpoint set (d : dict) (k : string) (v : value) : dict :=
  match d with
  | [] => [(k, v)]
  | (k', v') :: d' =>
      if String.eqb k' k then (k', v) :: d' else (k', v') :: set d' k v
  end.

(** [v / 10000.0].  An [int] is converted to [float] first, which raises
    [OverflowError] when it rounds beyond the binary64 range; another
    object raises or returns as its own division does. *)
Definition div_10000 (v : value) : exn + value :=
  match v with
  | VFloat x => inr (VFloat (x / 10000))
  | VInt z =>
      if is_infinity (Py.of_int z) then inl OverflowError
      else inr (VFloat (Py.of_int z / 10000))
  | VOther _ raises => inl raises
  | VQuot _ quotient => inr quotient
  end.

(** The [for k in (...)] loop of lines 11-14: the value of the first key
    of [ks] that the dict has. *)
Fixpoint first_present (d : dict) (ks : list string) : option value :=
  match ks with
  | [] => None
  | k :: ks' =>
      match get d k with
      | Some v => Some v
      | None => first_present d ks'
      end
  end.

Definition fee_synonyms : list string :=
  ["fee_rate"; "fee"; "commission"; "fees"]%string.

(** Lines 10-14. *)
Definition normalize_fee (out : dict) : dict :=
  if contains out "fee_pct" then out
  else
    match first_present out fee_synonyms with
    | Some v => set out "fee_pct" v
    | None => out
    end.

(** Lines 16-22. *)
Definition normalize_slippage (out : dict) : exn + dict :=
  if contains out "slippage_pct" then inr out
  else
    match get out "slippage_bp" with
    | Some v =>
        match div_10000 v with
        | inr q => inr (set out "slippage_pct" q)
        | inl e => inl e
        end
    | None =>
        match get out "slippage_bps" with
        | Some v =>
            match div_10000 v with
            | inr q => inr (set out "slippage_pct" q)
            | inl e => inl e
            end
        | None =>
            match get out "slippage" with
            | Some v => inr (set out "slippage_pct" v)
            | None => inr out
            end
        end
    end.

(** [normalize_fee_slippage(cfg)]; [cfg] is [None] or a dict, and
    [dict(cfg or {})] copies it. *)
Definition normalize_fee_slippage (cfg : option dict) : exn + dict :=
  let out := match cfg with Some d => d | None => [] end in
  normalize_slippage (normalize_fee out).

End Config.

(** ** Data classes *)

(** [TradeResult], field for field. *)
Record TradeResult : Type := mkTradeResult {
  entry_idx : nat;
  exit_idx : nat;
  side : Z;
  entry_price : float;
  exit_price : float;
  qty : float;
  pnl : float;
  ret : float
}.

(** The [position] dict built at entry; [pos_k] is the value under key
    ["k"].  The dict is never updated in place: the variable [position] is
    either rebound to a fresh dict or to [None]. *)
Record Position : Type := mkPosition {
  pos_side : Z;
  pos_qty : float;
  pos_entry_price : float;
  pos_entry_price_net : float;
  pos_stop : float;
  pos_tp : float;
  pos_entry_idx : nat
}.

(** The locals of [backtest] that live across loop iterations. *)
Record State : Type := mkState {
  balance : float;
  equity_curve : list float;
  position : option Position;
  trades : list TradeResult
}.

(** ** The loop of [backtest] *)

Section Engine.

(** Arguments of [backtest].  [price] is [df["close"].values], [signal] the
    signal series read through [int(signal.iloc[i])], and [ind_atr] the
    column [ind["atr"]] when the frame has one. *)
Variable price : list float.
Variable signal : list Z.
Variable ind_atr : option (list float).
Variables initial_capital risk_per_trade atr_stop_mult tp_mult : float.
Variables fee_pct slippage_pct : float.

(** [atr = ind["atr"].values if "atr" in ind.columns else np.zeros(len(df))] *)
Definition atr : list float :=
  match ind_atr with
  | Some col => col
  | None => repeat 0 (length price)
  end.

(** Mark-to-market equity (lines 106-114): one value is appended. *)
Definition mark_to_market (p : float) (st : State) : State :=
  match position st with
  | Some pos =>
      let side := pos_side pos in
      let entry := pos_entry_price pos in
      let qty := pos_qty pos in
      let mtm := (p - entry) * qty * Py.of_int side in
      mkState (balance st) (equity_curve st ++ [balance st + mtm])
              (position st) (trades st)
  | None =>
      mkState (balance st) (equity_curve st ++ [balance st])
              (position st) (trades st)
  end.

(** The stop test and the take-profit test of lines 124 and 126.  On
    binary64 values [x >= y] is [y <= x]: both are false when either side
    is NaN. *)
Definition stop_hit (side : Z) (p stop : float) : bool :=
  ((side =? 1)%Z && (p <=? stop)) || ((side =? -1)%Z && (stop <=? p)).

Definition tp_hit (side : Z) (p tp : float) : bool :=
  ((side =? 1)%Z && (tp <=? p)) || ((side =? -1)%Z && (p <=? tp)).

(** The local [exit_reason] (lines 123-127). *)
Definition exit_reason (side : Z) (p stop tp : float) : option string :=
  if stop_hit side p stop then Some "stop"%string
  else if tp_hit side p tp then Some "tp"%string
  else None.

(** Exit logic (lines 116-140).  [if exit_reason:] holds for both
    strings and fails for [None]. *)
Definition exit_logic (i : nat) (p : float) (st : State) : State :=
  match position st with
  | Some pos =>
      let side := pos_side pos in
      let qty := pos_qty pos in
      let stop := pos_stop pos in
      let tp := pos_tp pos in
      let entry_idx := pos_entry_idx pos in
      match exit_reason side p stop tp with
      | Some _ =>
          let exit_price :=
            if (side =? 1)%Z then p * (1 - slippage_pct)
            else p * (1 + slippage_pct) in
          let fee := (abs qty * exit_price) * fee_pct in
          let entry_price_net := pos_entry_price_net pos in
          let pnl := (exit_price - entry_price_net) * qty * Py.of_int side - fee in
          let ret := pnl / Py.max 1e-9 initial_capital in
          mkState (balance st + pnl) (equity_curve st) None
                  (trades st ++
                   [mkTradeResult entry_idx i side (pos_entry_price pos)
                                  exit_price qty pnl ret])
      | None => st
      end
  | None => st
  end.

(** Entry logic (lines 142-166).  [signal.iloc[i]] is evaluated only when no
    position is open, [atr[i]] only when the signal is nonzero; either can
    raise [IndexError].  The two [continue] statements end the iteration
    with the locals as they are. *)
Definition entry_logic (i : nat) (p : float) (st : State) : Py.result State :=
  match position st with
  | Some _ => Py.Ok st
  | None =>
      s <- Py.index signal i ;;
      if (s =? 0)%Z then Py.Ok st
      else
        let side := s in
        ai <- Py.index atr i ;;
        let a := if Py.isnan ai then 0 else ai in
        if a <=? 0 then Py.Ok st
        else
          let qty := atr_position_size (balance st) risk_per_trade a p atr_stop_mult in
          if qty <=? 0 then Py.Ok st
          else
            let entry_price :=
              if (side =? 1)%Z then p * (1 + slippage_pct)
              else p * (1 - slippage_pct) in
            let fee := (abs qty * entry_price) * fee_pct in
            let entry_price_net :=
              entry_price
              + (fee / Py.max 1e-9 (abs qty))
                * Py.of_int (if (side =? 1)%Z then 1 else -1) in
            let stop := entry_price - Py.of_int side * (a * atr_stop_mult) in
            let tp := entry_price + Py.of_int side * (a * atr_stop_mult * tp_mult) in
            Py.Ok (mkState (balance st) (equity_curve st)
                     (Some (mkPosition side qty entry_price entry_price_net
                                       stop tp i))
                     (trades st))
  end.

(** One iteration of the [for] loop, for bar [i] with close [p]. *)
Definition loop_body (i : nat) (p : float) (st : State) : Py.result State :=
  entry_logic i p (exit_logic i p (mark_to_market p st)).

(** [for i in range(len(df))], started at bar [i] with the closes [ps] that
    remain. *)
Fixpoint loop (i : nat) (ps : list float) (st : State) : Py.result State :=
  match ps with
  | [] => Py.Ok st
  | p :: ps' =>
      st' <- loop_body i p st ;;
      loop (S i) ps' st'
  end.

(** The locals before the loop (lines 95-98). *)
Definition init_state : State := mkState initial_capital [] None [].

(** [backtest]: the equity series and the trade list. *)
Definition backtest : Py.result (list float * list TradeResult) :=
  st <- loop 0 price init_state ;;
  Py.Ok (equity_curve st, trades st).

(** ** Quantities the statements below speak of *)

(** The value the mark-to-market step computes from the locals as they are
    when the bar starts. *)
Definition marked_equity (p : float) (st : State) : float :=
  match position st with
  | Some pos =>
      balance st
      + (p - pos_entry_price pos) * pos_qty pos * Py.of_int (pos_side pos)
  | None => balance st
  end.

(** The exit fill, fee and realized P&L of lines 130-133 for a position
    [pos] closed at close [p]. *)
Definition exit_fill (pos : Position) (p : float) : float :=
  if (pos_side pos =? 1)%Z then p * (1 - slippage_pct)
  else p * (1 + slippage_pct).

Definition exit_fee (pos : Position) (p : float) : float :=
  (abs (pos_qty pos) * exit_fill pos p) * fee_pct.

Definition realized_pnl (pos : Position) (p : float) : float :=
  (exit_fill pos p - pos_entry_price_net pos) * pos_qty pos
  * Py.of_int (pos_side pos)
  - exit_fee pos p.

(** The trade appended when [pos] is closed on bar [i] at close [p]. *)
Definition closed_trade (pos : Position) (i : nat) (p : float) : TradeResult :=
  mkTradeResult (pos_entry_idx pos) i (pos_side pos) (pos_entry_price pos)
                (exit_fill pos p) (pos_qty pos) (realized_pnl pos p)
                (realized_pnl pos p / Py.max 1e-9 initial_capital).

(** Whether the exit logic closes [pos] at close [p]. *)
Definition exits (pos : Position) (p : float) : bool :=
  stop_hit (pos_side pos) p (pos_stop pos)
  || tp_hit (pos_side pos) p (pos_tp pos).

(** The volatility the entry logic works with: [atr[i]], or [0.0] when that
    is NaN (line 145). *)
Definition entry_vol (ai : float) : float := if Py.isnan ai then 0 else ai.

(** The quantity the entry logic asks of the sizer (line 148). *)
Definition entry_qty (st : State) (ai p : float) : float :=
  atr_position_size (balance st) risk_per_trade (entry_vol ai) p atr_stop_mult.

(** The dict of lines 152-166 for signal [s], volatility [a], quantity [q],
    close [p] and bar [i]. *)
Definition opened (s : Z) (a q p : float) (i : nat) : Position :=
  let entry_price :=
    if (s =? 1)%Z then p * (1 + slippage_pct) else p * (1 - slippage_pct) in
  let fee := (abs q * entry_price) * fee_pct in
  mkPosition s q entry_price
    (entry_price
     + (fee / Py.max 1e-9 (abs q)) * Py.of_int (if (s =? 1)%Z then 1 else -1))
    (entry_price - Py.of_int s * (a * atr_stop_mult))
    (entry_price + Py.of_int s * (a * atr_stop_mult * tp_mult))
    i.

(** ** Predicates on ledgers and on pairs of runs *)

(** [chain lo ts]: the trades [ts] follow one another in time, none
    entered before bar [lo], each entered before it is exited, each entered
    no earlier than the exit of the one before it. *)
Fixpoint chain (lo : nat) (ts : list TradeResult) : Prop :=
  match ts with
  | [] => True
  | t :: ts' =>
      lo <= entry_idx t /\ entry_idx t < exit_idx t /\ chain (exit_idx t) ts'
  end.

(** Exit bar of the last trade of [ts], [lo] when there is none. *)
Fixpoint last_exit (lo : nat) (ts : list TradeResult) : nat :=
  match ts with
  | [] => lo
  | t :: ts' => last_exit (exit_idx t) ts'
  end.

(** What holds of the locals when bar [i] starts. *)
Definition ledger_inv (i : nat) (st : State) : Prop :=
  chain 0 (trades st)
  /\ match position st with
     | Some pos =>
         last_exit 0 (trades st) <= pos_entry_idx pos /\ pos_entry_idx pos < i
     | None => last_exit 0 (trades st) <= i
     end.

(** Total realized P&L of a ledger: the [pnl] fields added up from the
    left. *)
Definition total_realized_pnl (trs : list TradeResult) : float :=
  fold_left (fun acc t => acc + pnl t) trs 0.

(** Two trades that differ at most in [pnl] and [ret]. *)
Definition same_fill (t1 t2 : TradeResult) : Prop :=
  entry_idx t1 = entry_idx t2 /\ exit_idx t1 = exit_idx t2
  /\ side t1 = side t2 /\ entry_price t1 = entry_price t2
  /\ exit_price t1 = exit_price t2 /\ qty t1 = qty t2.

(** Two positions that differ at most in the cost basis. *)
Definition same_levels (p1 p2 : Position) : Prop :=
  pos_side p1 = pos_side p2 /\ pos_qty p1 = pos_qty p2
  /\ pos_entry_price p1 = pos_entry_price p2
  /\ pos_stop p1 = pos_stop p2 /\ pos_tp p1 = pos_tp p2
  /\ pos_entry_idx p1 = pos_entry_idx p2.

(** Locals of two runs that have booked no trade yet and differ at most in
    the cost basis of the open position. *)
Definition fee_sim (st1 st2 : State) : Prop :=
  balance st1 = balance st2
  /\ equity_curve st1 = equity_curve st2
  /\ trades st1 = [] /\ trades st2 = []
  /\ match position st1, position st2 with
     | None, None => True
     | Some p1, Some p2 => same_levels p1 p2
     | _, _ => False
     end.

(** Outcomes of the two runs after some bars: still in step with no trade
    booked, or each with a first trade filled alike; once a trade is
    booked the balances differ and one run may raise where the other does
    not. *)
Definition fee_outcome (r1 r2 : Py.result State) : Prop :=
  match r1, r2 with
  | Py.Ok a, Py.Ok b =>
      fee_sim a b
      \/ exists t1 l1 t2 l2,
           trades a = t1 :: l1 /\ trades b = t2 :: l2 /\ same_fill t1 t2
  | Py.Raise _, Py.Raise _ => True
  | Py.Ok a, Py.Raise _ => trades a <> []
  | Py.Raise _, Py.Ok b => trades b <> []
  end.

(** ** Data of the worked runs *)

(** Three bars: a rise to the take-profit, a re-entry on the bar of that
    exit, and a gap through the stop of the second position.  Half the
    balance is risked per trade, the volatility is 1 on every bar, both
    multipliers are 1 and there is no slippage. *)
Definition gap_price : list float := [100; 101; 90].
Definition gap_signal : list Z := [1; 1; 0]%Z.
Definition gap_atr : option (list float) := Some [1; 1; 1].

Definition gap_equity : list float := [10000; 15000; -67500].

Definition gap_trades : list TradeResult :=
  [ mkTradeResult 0 1 1 100 101 5000 5000 0.5;
    mkTradeResult 1 2 1 101 90 7500 (-82500) (-8.25) ].

(** The position bar 0 of that run opens, and the locals when bar 1
    starts, both at a fee rate of 0. *)
Definition gap_pos : Position := mkPosition 1 5000 100 100 99 101 0.

Definition gap_bar1 : State := mkState 10000 [10000] (Some gap_pos) [].

(** ** Locals reached by a run *)

(** The locals when bar [i] starts: the loop has run bars [0 .. i-1]. *)
Definition reached (i : nat) (st : State) : Prop :=
  i <= length price /\ loop 0 (firstn i price) init_state = Py.Ok st.

(** The balance a ledger accounts for: the initial capital with each
    [pnl] added in the order of the ledger. *)
Definition booked_balance (trs : list TradeResult) : float :=
  fold_left (fun b t => b + pnl t) trs initial_capital.

(** What the entry logic establishes of a position and the exit logic
    relies on: it was opened on the nonzero signal of its entry bar, with
    a positive quantity, at the slipped close of that bar. *)
Definition position_ok (pos : Position) : Prop :=
  nth_error signal (pos_entry_idx pos) = Some (pos_side pos)
  /\ pos_side pos <> 0%Z
  /\ (0 <? pos_qty pos) = true
  /\ exists pe,
       nth_error price (pos_entry_idx pos) = Some pe
       /\ pos_entry_price pos =
          if (pos_side pos =? 1)%Z then pe * (1 + slippage_pct)
          else pe * (1 - slippage_pct).

(** What holds of every booked trade. *)
Definition trade_ok (t : TradeResult) : Prop :=
  (side t = 1%Z \/ side t = (-1)%Z)
  /\ nth_error signal (entry_idx t) = Some (side t)
  /\ (0 <? qty t) = true
  /\ ret t = pnl t / Py.max 1e-9 initial_capital
  /\ exists pe px,
       nth_error price (entry_idx t) = Some pe
       /\ nth_error price (exit_idx t) = Some px
       /\ entry_price t =
          (if (side t =? 1)%Z then pe * (1 + slippage_pct)
           else pe * (1 - slippage_pct))
       /\ exit_price t =
          (if (side t =? 1)%Z then px * (1 - slippage_pct)
           else px * (1 + slippage_pct)).

(** Bar [j] cannot open a position: its signal is zero, or its signal and
    volatility can be read and the volatility is NaN or not above zero. *)
Definition idle (j : nat) : Prop :=
  nth_error signal j = Some 0%Z
  \/ exists s ai,
       nth_error signal j = Some s /\ nth_error atr j = Some ai
       /\ (entry_vol ai <=? 0) = true.

(** The mark of close [p] while [pos] is held with balance [b]. *)
Definition held_mark (b : float) (pos : Position) (p : float) : float :=
  b + (p - pos_entry_price pos) * pos_qty pos * Py.of_int (pos_side pos).

(** The [pnl] lines 131-133 and 153-155 give a trade with the fields of
    [t] at fee rate [f]: the entry fee shifts the cost basis, the exit fee
    is subtracted. *)
Definition pnl_at (f : float) (t : TradeResult) : float :=
  let entry_fee := (abs (qty t) * entry_price t) * f in
  let entry_price_net :=
    entry_price t
    + (entry_fee / Py.max 1e-9 (abs (qty t)))
      * Py.of_int (if (side t =? 1)%Z then 1 else -1) in
  let exit_fee := (abs (qty t) * exit_price t) * f in
  (exit_price t - entry_price_net) * qty t * Py.of_int (side t) - exit_fee.

(** ** Facts about one bar *)

Lemma mark_to_market_eq (p : float) (st : State) :
  mark_to_market p st =
  mkState (balance st) (equity_curve st ++ [marked_equity p st])
          (position st) (trades st).
Proof.
  unfold mark_to_market, marked_equity.
  destruct (position st); reflexivity.
Qed.

Lemma exit_reason_exits (pos : Position) (p : float) :
  exit_reason (pos_side pos) p (pos_stop pos) (pos_tp pos) <> None
  <-> exits pos p = true.
Proof.
  unfold exit_reason, exits.
  destruct (stop_hit _ _ _); [ simpl; split; [ reflexivity | discriminate ] | ].
  destruct (tp_hit _ _ _); simpl; split; try reflexivity; try discriminate.
  intros H; contradiction H; reflexivity.
Qed.

Lemma exit_logic_flat (i : nat) (p : float) (st : State) :
  position st = None -> exit_logic i p st = st.
Proof. intros H. unfold exit_logic. rewrite H. reflexivity. Qed.

Lemma exit_logic_hit (i : nat) (p : float) (st : State) (pos : Position) :
  position st = Some pos ->
  exits pos p = true ->
  exit_logic i p st =
  mkState (balance st + realized_pnl pos p) (equity_curve st) None
          (trades st ++ [closed_trade pos i p]).
Proof.
  intros Hpos Hex. apply exit_reason_exits in Hex.
  unfold exit_logic. rewrite Hpos.
  destruct (exit_reason _ _ _ _); [ reflexivity | contradiction Hex; reflexivity ].
Qed.

Lemma exit_logic_hold (i : nat) (p : float) (st : State) (pos : Position) :
  position st = Some pos ->
  exits pos p = false ->
  exit_logic i p st = st.
Proof.
  intros Hpos Hex. unfold exit_logic. rewrite Hpos.
  destruct (exit_reason _ _ _ _) eqn:E; [ | reflexivity ].
  assert (exits pos p = true) by (apply exit_reason_exits; rewrite E; discriminate).
  congruence.
Qed.

Lemma entry_logic_open (i : nat) (p : float) (st : State) (s : Z) (ai : float) :
  position st = None ->
  nth_error signal i = Some s -> s <> 0%Z ->
  nth_error atr i = Some ai ->
  (entry_vol ai <=? 0) = false ->
  (entry_qty st ai p <=? 0) = false ->
  entry_logic i p st =
  Py.Ok (mkState (balance st) (equity_curve st)
           (Some (opened s (entry_vol ai) (entry_qty st ai p) p i))
           (trades st)).
Proof.
  intros Hpos Hs Hnz Ha Hvol Hq.
  unfold entry_logic, Py.bind, Py.index. rewrite Hpos, Hs.
  apply Z.eqb_neq in Hnz. rewrite Hnz, Ha.
  fold (entry_vol ai). rewrite Hvol.
  fold (entry_qty st ai p). rewrite Hq. reflexivity.
Qed.

Lemma entry_logic_skip (i : nat) (p : float) (st : State) (s : Z) (ai : float) :
  position st = None ->
  nth_error signal i = Some s ->
  nth_error atr i = Some ai ->
  (entry_vol ai <=? 0) = true \/ (entry_qty st ai p <=? 0) = true ->
  entry_logic i p st = Py.Ok st.
Proof.
  intros Hpos Hs Ha Hskip.
  unfold entry_logic, Py.bind, Py.index. rewrite Hpos, Hs.
  destruct (s =? 0)%Z; [ reflexivity | ]. rewrite Ha.
  fold (entry_vol ai). destruct (entry_vol ai <=? 0) eqn:Hvol; [ reflexivity | ].
  fold (entry_qty st ai p). destruct Hskip as [H | H]; [ discriminate | ].
  rewrite H. reflexivity.
Qed.

(** Every normal outcome of the entry logic: nothing changed, or a position
    was opened from a flat state on a nonzero signal. *)
Lemma entry_logic_inv (i : nat) (p : float) (st st' : State) :
  entry_logic i p st = Py.Ok st' ->
  st' = st \/
  (position st = None /\
   exists s ai,
     nth_error signal i = Some s /\ s <> 0%Z /\
     nth_error atr i = Some ai /\
     (entry_vol ai <=? 0) = false /\
     (entry_qty st ai p <=? 0) = false /\
     st' = mkState (balance st) (equity_curve st)
             (Some (opened s (entry_vol ai) (entry_qty st ai p) p i))
             (trades st)).
Proof.
  unfold entry_logic, Py.bind, Py.index.
  destruct (position st) eqn:Hpos; [ intros [= <-]; left; reflexivity | ].
  destruct (nth_error signal i) as [s|] eqn:Hs; [ | discriminate ].
  destruct (s =? 0)%Z eqn:Hnz; [ intros [= <-]; left; reflexivity | ].
  destruct (nth_error atr i) as [ai|] eqn:Ha; [ | discriminate ].
  fold (entry_vol ai).
  destruct (entry_vol ai <=? 0) eqn:Hvol; [ intros [= <-]; left; reflexivity | ].
  fold (entry_qty st ai p).
  destruct (entry_qty st ai p <=? 0) eqn:Hq; [ intros [= <-]; left; reflexivity | ].
  intros [= <-]. right. split; [ reflexivity | ].
  exists s, ai. apply Z.eqb_neq in Hnz. repeat split; assumption.
Qed.

(** When the entry logic raises. *)
Lemma entry_logic_raise (i : nat) (p : float) (st : State) (e : Py.exn) :
  entry_logic i p st = Py.Raise e <->
  position st = None /\
  (nth_error signal i = None \/
   exists s, nth_error signal i = Some s /\ s <> 0%Z /\ nth_error atr i = None).
Proof.
  unfold entry_logic, Py.bind, Py.index. destruct e.
  destruct (position st) eqn:Hpos.
  { split; [ discriminate | intros [H _]; discriminate ]. }
  destruct (nth_error signal i) as [s|] eqn:Hs.
  2:{ split; [ intros _; split; [ reflexivity | left; reflexivity ] | reflexivity ]. }
  destruct (s =? 0)%Z eqn:Hnz.
  { apply Z.eqb_eq in Hnz. split; [ discriminate | ].
    intros [_ [H | (s' & [= <-] & Hs' & _)]]; [ discriminate | contradiction ]. }
  apply Z.eqb_neq in Hnz.
  destruct (nth_error atr i) as [ai|] eqn:Ha.
  { split.
    - destruct (_ <=? 0); [ discriminate | ]. destruct (_ <=? 0); discriminate.
    - intros [_ [H | (s' & _ & _ & H)]]; discriminate. }
  split; [ | reflexivity ].
  intros _. split; [ reflexivity | right ]. exists s. repeat split; assumption.
Qed.

(** ** Claims about one bar *)

(** C3 (as amended).  With a position open, the exit logic closes it
    exactly when the close-only stop test or the take-profit test holds.
    The stop test is made first, so the local [exit_reason] is ["stop"]
    whenever it holds, the take-profit test holding or not, and ["tp"]
    only when it fails.  The reason is not kept: the locals after an exit
    (balance, ledger, the trade appended) are the same function of the
    position, the close and the bar, whichever test fired. *)
Theorem exit_iff_stop_or_take_profit
    (i : nat) (p : float) (st : State) (pos : Position) :
  position st = Some pos ->
  let side := pos_side pos in
  let stop := pos_stop pos in
  let tp := pos_tp pos in
  let stop_cond :=
    ((side =? 1)%Z && (p <=? stop)) || ((side =? -1)%Z && (stop <=? p)) in
  let tp_cond :=
    ((side =? 1)%Z && (tp <=? p)) || ((side =? -1)%Z && (p <=? tp)) in
  let exit_price :=
    if (side =? 1)%Z then p * (1 - slippage_pct) else p * (1 + slippage_pct) in
  let fee := (abs (pos_qty pos) * exit_price) * fee_pct in
  let pnl :=
    (exit_price - pos_entry_price_net pos) * pos_qty pos * Py.of_int side
    - fee in
  (position (exit_logic i p st) = None <-> stop_cond || tp_cond = true)
  /\ (stop_cond || tp_cond = true ->
      exit_logic i p st =
      mkState (balance st + pnl) (equity_curve st) None
        (trades st ++
         [mkTradeResult (pos_entry_idx pos) i side (pos_entry_price pos)
                        exit_price (pos_qty pos) pnl
                        (pnl / Py.max 1e-9 initial_capital)]))
  /\ (stop_cond || tp_cond = false -> exit_logic i p st = st)
  /\ (stop_cond = true -> exit_reason side p stop tp = Some "stop"%string)
  /\ (stop_cond = false -> tp_cond = true ->
      exit_reason side p stop tp = Some "tp"%string).
Proof.
  intros Hpos side stop tp stop_cond tp_cond exit_price fee pnl.
  assert (Hex : exits pos p = stop_cond || tp_cond) by reflexivity.
  assert (Hr : forall b, stop_cond = b ->
                 stop_hit side p stop = b) by (intros b <-; reflexivity).
  assert (Ht : forall b, tp_cond = b ->
                 tp_hit side p tp = b) by (intros b <-; reflexivity).
  split; [ split | split; [ | split; [ | split ] ] ].
  - intros Hnone. destruct (stop_cond || tp_cond) eqn:E; [ reflexivity | ].
    rewrite (exit_logic_hold i p st pos Hpos) in Hnone by congruence.
    congruence.
  - intros E. rewrite (exit_logic_hit i p st pos Hpos) by congruence.
    reflexivity.
  - intros E. rewrite (exit_logic_hit i p st pos Hpos) by congruence.
    reflexivity.
  - intros E. apply (exit_logic_hold i p st pos Hpos). congruence.
  - intros E. unfold exit_reason. rewrite (Hr _ E). reflexivity.
  - intros E1 E2. unfold exit_reason. rewrite (Hr _ E1), (Ht _ E2). reflexivity.
Qed.

(** C7.  Fill prices.  From flat locals, a bar whose signal is [+1] and
    whose volatility and sized quantity pass the guards opens a long
    position at [p * (1 + slippage_pct)]; with signal [-1] it opens a short
    position at [p * (1 - slippage_pct)].  A long position whose stop or
    take-profit test holds at close [p] is closed and booked at
    [p * (1 - slippage_pct)], a short one at [p * (1 + slippage_pct)]. *)
Theorem slippage_against_trader (i : nat) (p : float) (st : State) :
  (forall s ai,
      position st = None ->
      nth_error signal i = Some s -> s = 1%Z \/ s = (-1)%Z ->
      nth_error atr i = Some ai ->
      (entry_vol ai <=? 0) = false ->
      (entry_qty st ai p <=? 0) = false ->
      exists st' pos,
        entry_logic i p st = Py.Ok st'
        /\ position st' = Some pos
        /\ pos_side pos = s
        /\ (s = 1%Z -> pos_entry_price pos = p * (1 + slippage_pct))
        /\ (s = (-1)%Z -> pos_entry_price pos = p * (1 - slippage_pct)))
  /\ (forall pos,
      position st = Some pos ->
      pos_side pos = 1%Z ->
      (p <=? pos_stop pos) || (pos_tp pos <=? p) = true ->
      exists t,
        exit_logic i p st =
        mkState (balance st + pnl t) (equity_curve st) None (trades st ++ [t])
        /\ side t = 1%Z /\ exit_idx t = i
        /\ exit_price t = p * (1 - slippage_pct))
  /\ (forall pos,
      position st = Some pos ->
      pos_side pos = (-1)%Z ->
      (pos_stop pos <=? p) || (p <=? pos_tp pos) = true ->
      exists t,
        exit_logic i p st =
        mkState (balance st + pnl t) (equity_curve st) None (trades st ++ [t])
        /\ side t = (-1)%Z /\ exit_idx t = i
        /\ exit_price t = p * (1 + slippage_pct)).
Proof.
  split; [ | split ].
  - intros s ai Hflat Hs Hside Ha Hv Hq.
    assert (Hnz : s <> 0%Z) by (destruct Hside; subst; discriminate).
    rewrite (entry_logic_open i p st s ai Hflat Hs Hnz Ha Hv Hq).
    do 2 eexists. split; [ reflexivity | ]. simpl.
    split; [ reflexivity | ]. split; [ reflexivity | ].
    split; intros ->; reflexivity.
  - intros pos Hpos Hside Hcond.
    assert (Hex : exits pos p = true).
    { unfold exits, stop_hit, tp_hit. rewrite Hside. simpl.
      rewrite !orb_false_r. exact Hcond. }
    rewrite (exit_logic_hit i p st pos Hpos Hex).
    exists (closed_trade pos i p). split; [ reflexivity | ].
    unfold closed_trade, exit_fill. simpl. rewrite Hside. repeat split.
  - intros pos Hpos Hside Hcond.
    assert (Hex : exits pos p = true).
    { unfold exits, stop_hit, tp_hit. rewrite Hside. simpl. exact Hcond. }
    rewrite (exit_logic_hit i p st pos Hpos Hex).
    exists (closed_trade pos i p). split; [ reflexivity | ].
    unfold closed_trade, exit_fill. simpl. rewrite Hside. repeat split.
Qed.

(** C1 (as amended).  A position [pos] opened by the entry logic leaves the
    balance as it was and carries the cost basis
    [entry_price + (entry_fee / max(1e-9, |qty|)) * sign]; when the exit
    logic later closes it on close [p], the balance grows by exactly
    [pnl = (exit_price - entry_price_net) * qty * side - exit_fee], and the
    trade appended records that [pnl]. *)
Theorem realized_pnl_formula
    (j i : nat) (pj p : float) (st0 st1 st : State) (pos : Position) :
  position st0 = None ->
  entry_logic j pj st0 = Py.Ok st1 ->
  position st1 = Some pos ->
  position st = Some pos ->
  position (exit_logic i p st) = None ->
  let sign := if (pos_side pos =? 1)%Z then 1%Z else (-1)%Z in
  let entry_fee := (abs (pos_qty pos) * pos_entry_price pos) * fee_pct in
  let exit_price :=
    if (pos_side pos =? 1)%Z then p * (1 - slippage_pct)
    else p * (1 + slippage_pct) in
  let fee := (abs (pos_qty pos) * exit_price) * fee_pct in
  let pnl :=
    (exit_price - pos_entry_price_net pos) * pos_qty pos
    * Py.of_int (pos_side pos) - fee in
  balance st1 = balance st0
  /\ pos_entry_price_net pos =
     pos_entry_price pos
     + (entry_fee / Py.max 1e-9 (abs (pos_qty pos))) * Py.of_int sign
  /\ balance (exit_logic i p st) = balance st + pnl
  /\ trades (exit_logic i p st) =
     trades st ++
     [mkTradeResult (pos_entry_idx pos) i (pos_side pos) (pos_entry_price pos)
                    exit_price (pos_qty pos) pnl
                    (pnl / Py.max 1e-9 initial_capital)].
Proof.
  intros Hflat Hent Hopen Hpos Hnone. cbv zeta.
  destruct (entry_logic_inv j pj st0 st1 Hent)
    as [-> | (_ & s & ai & _ & _ & _ & _ & _ & ->)]; [ congruence | ].
  simpl in Hopen. injection Hopen as <-.
  destruct (exits (opened s (entry_vol ai) (entry_qty st0 ai pj) pj j) p) eqn:Hex.
  - rewrite (exit_logic_hit i p st _ Hpos Hex). simpl.
    repeat split; reflexivity.
  - rewrite (exit_logic_hold i p st _ Hpos Hex) in Hnone. congruence.
Qed.

(** C5.  When the exit check of bar [i] closes the open position, the
    entry check still runs on bar [i]: with a nonzero signal, a positive
    volatility and a positive sized quantity, the bar ends with the closed
    trade appended to the ledger and a new position whose entry index is
    [i]. *)
Theorem same_bar_reopen
    (i : nat) (p : float) (st : State) (pos : Position) (s : Z) (ai : float) :
  position st = Some pos ->
  position (exit_logic i p (mark_to_market p st)) = None ->
  nth_error signal i = Some s -> s <> 0%Z ->
  nth_error atr i = Some ai ->
  (entry_vol ai <=? 0) = false ->
  (entry_qty (exit_logic i p (mark_to_market p st)) ai p <=? 0) = false ->
  exists st' t pos',
    loop_body i p st = Py.Ok st'
    /\ trades st' = trades st ++ [t]
    /\ entry_idx t = pos_entry_idx pos /\ exit_idx t = i
    /\ position st' = Some pos'
    /\ pos_entry_idx pos' = i /\ pos_side pos' = s
    /\ pos_qty pos' = entry_qty (exit_logic i p (mark_to_market p st)) ai p.
Proof.
  intros Hpos Hnone Hs Hnz Ha Hvol Hq.
  unfold loop_body.
  rewrite (entry_logic_open i p _ s ai Hnone Hs Hnz Ha Hvol Hq).
  assert (Hpos' : position (mark_to_market p st) = Some pos)
    by (rewrite mark_to_market_eq; exact Hpos).
  destruct (exits pos p) eqn:Hex.
  - rewrite (exit_logic_hit i p _ pos Hpos' Hex).
    rewrite mark_to_market_eq. simpl.
    do 3 eexists. repeat split; reflexivity.
  - rewrite (exit_logic_hold i p _ pos Hpos' Hex) in Hnone. congruence.
Qed.

(** C6.  On a bar with a nonzero signal where the engine is flat at the
    entry check, a NaN or non-positive volatility, or a non-positive sized
    quantity, skips the entry and nothing else.  If the bar starts flat it
    ends with the balance appended to the curve and all else unchanged; if
    it starts with a position whose stop or take-profit test holds, the
    mark is appended, the position is closed and booked, the balance takes
    the [pnl], and no position is opened.  In both cases the bar returns
    normally and the loop goes on with the next bar. *)
Theorem entry_skipped_not_fatal
    (i : nat) (p : float) (st : State) (s : Z) (ai : float) :
  nth_error signal i = Some s -> s <> 0%Z ->
  nth_error atr i = Some ai ->
  let a := if Py.isnan ai then 0 else ai in
  let gap b :=
    Py.isnan ai = true \/ (ai <=? 0) = true
    \/ (atr_position_size b risk_per_trade a p atr_stop_mult <=? 0) = true in
  (position st = None -> gap (balance st) ->
   let st' :=
     mkState (balance st) (equity_curve st ++ [balance st]) None (trades st) in
   loop_body i p st = Py.Ok st'
   /\ forall ps, loop i (p :: ps) st = loop (S i) ps st')
  /\ (forall pos,
      position st = Some pos ->
      let side := pos_side pos in
      let stop_cond :=
        ((side =? 1)%Z && (p <=? pos_stop pos))
        || ((side =? -1)%Z && (pos_stop pos <=? p)) in
      let tp_cond :=
        ((side =? 1)%Z && (pos_tp pos <=? p))
        || ((side =? -1)%Z && (p <=? pos_tp pos)) in
      let exit_price :=
        if (side =? 1)%Z then p * (1 - slippage_pct)
        else p * (1 + slippage_pct) in
      let fee := (abs (pos_qty pos) * exit_price) * fee_pct in
      let pnl :=
        (exit_price - pos_entry_price_net pos) * pos_qty pos * Py.of_int side
        - fee in
      stop_cond || tp_cond = true ->
      gap (balance st + pnl) ->
      let st' :=
        mkState (balance st + pnl)
          (equity_curve st ++
           [balance st
            + (p - pos_entry_price pos) * pos_qty pos * Py.of_int side])
          None
          (trades st ++
           [mkTradeResult (pos_entry_idx pos) i side (pos_entry_price pos)
                          exit_price (pos_qty pos) pnl
                          (pnl / Py.max 1e-9 initial_capital)]) in
      loop_body i p st = Py.Ok st'
      /\ forall ps, loop i (p :: ps) st = loop (S i) ps st').
Proof.
  intros Hs Hnz Ha a gap.
  assert (Hskip : forall st1, position st1 = None -> gap (balance st1) ->
                    entry_logic i p st1 = Py.Ok st1).
  { intros st1 Hnone Hgap.
    apply (entry_logic_skip i p st1 s ai Hnone Hs Ha).
    destruct Hgap as [Hnan | [Hle | Hq]]; [ left | left | right; exact Hq ].
    - unfold entry_vol. rewrite Hnan. reflexivity.
    - unfold entry_vol. destruct (Py.isnan ai); [ reflexivity | exact Hle ]. }
  assert (Hloop : forall st', loop_body i p st = Py.Ok st' ->
                    forall ps, loop i (p :: ps) st = loop (S i) ps st').
  { intros st' Hb ps. simpl. rewrite Hb. reflexivity. }
  split.
  - intros Hflat Hgap st'.
    assert (Hb : loop_body i p st = Py.Ok st').
    { unfold loop_body.
      rewrite exit_logic_flat by (rewrite mark_to_market_eq; exact Hflat).
      rewrite mark_to_market_eq. unfold marked_equity. rewrite Hflat.
      apply Hskip; [ reflexivity | exact Hgap ]. }
    split; [ exact Hb | exact (Hloop st' Hb) ].
  - intros pos Hpos side stop_cond tp_cond exit_price fee pnl Hcond Hgap st'.
    assert (Hb : loop_body i p st = Py.Ok st').
    { unfold loop_body.
      assert (Hm : position (mark_to_market p st) = Some pos)
        by (rewrite mark_to_market_eq; exact Hpos).
      rewrite (exit_logic_hit i p _ pos Hm Hcond).
      rewrite mark_to_market_eq. unfold marked_equity. rewrite Hpos. simpl.
      apply Hskip; [ reflexivity | exact Hgap ]. }
    split; [ exact Hb | exact (Hloop st' Hb) ].
Qed.

(** ** Facts about the loop *)

Local Open Scope nat_scope.

Lemma exit_logic_equity (i : nat) (p : float) (st : State) :
  equity_curve (exit_logic i p st) = equity_curve st.
Proof.
  unfold exit_logic. destruct (position st); [ | reflexivity ].
  destruct (exit_reason _ _ _ _); reflexivity.
Qed.

Lemma entry_logic_equity (i : nat) (p : float) (st st' : State) :
  entry_logic i p st = Py.Ok st' -> equity_curve st' = equity_curve st.
Proof.
  intros H. destruct (entry_logic_inv i p st st' H)
    as [-> | (_ & s & ai & _ & _ & _ & _ & _ & ->)]; reflexivity.
Qed.

Lemma entry_logic_trades (i : nat) (p : float) (st st' : State) :
  entry_logic i p st = Py.Ok st' ->
  trades st' = trades st /\ balance st' = balance st.
Proof.
  intros H. destruct (entry_logic_inv i p st st' H)
    as [-> | (_ & s & ai & _ & _ & _ & _ & _ & ->)]; split; reflexivity.
Qed.

(** One bar appends exactly one equity value, computed from the locals the
    bar started with. *)
Lemma loop_body_equity (i : nat) (p : float) (st st' : State) :
  loop_body i p st = Py.Ok st' ->
  equity_curve st' = equity_curve st ++ [marked_equity p st].
Proof.
  unfold loop_body. intros H. apply entry_logic_equity in H.
  rewrite H, exit_logic_equity, mark_to_market_eq. reflexivity.
Qed.

Lemma loop_app (i : nat) (ps qs : list float) (st : State) :
  loop i (ps ++ qs) st =
  (st1 <- loop i ps st ;; loop (i + length ps) qs st1).
Proof.
  revert i st. induction ps as [| p ps IH]; intros i st; simpl.
  - rewrite Nat.add_0_r. reflexivity.
  - destruct (loop_body i p st) as [st1 | e]; simpl; [ | reflexivity ].
    rewrite IH. replace (S i + length ps) with (i + S (length ps)) by lia.
    reflexivity.
Qed.

Lemma loop_equity (i : nat) (ps : list float) (st st' : State) :
  loop i ps st = Py.Ok st' ->
  exists tl, equity_curve st' = equity_curve st ++ tl /\ length tl = length ps.
Proof.
  revert i st. induction ps as [| p ps IH]; intros i st; simpl.
  - intros [= <-]. exists []. rewrite app_nil_r. split; reflexivity.
  - destruct (loop_body i p st) as [st1 | e] eqn:Hb; simpl; [ | discriminate ].
    intros H. destruct (IH _ _ H) as (tl & Heq & Hlen).
    rewrite (loop_body_equity i p st st1 Hb), <- app_assoc in Heq.
    eexists. split; [ exact Heq | simpl; rewrite Hlen; reflexivity ].
Qed.

(** The bar at offset [k]: the bars before it ran to some locals [stk], and
    the value at its place in the final curve is the mark of [stk]. *)
Lemma loop_equity_nth (i : nat) (ps : list float) (st st' : State)
    (k : nat) (p : float) :
  loop i ps st = Py.Ok st' ->
  nth_error ps k = Some p ->
  exists stk,
    loop i (firstn k ps) st = Py.Ok stk
    /\ length (equity_curve stk) = length (equity_curve st) + k
    /\ nth_error (equity_curve st') (length (equity_curve st) + k)
       = Some (marked_equity p stk).
Proof.
  intros Hloop Hk.
  destruct (nth_error_split ps k Hk) as (l1 & l2 & Hps & Hlen).
  assert (Hfirst : firstn k ps = l1).
  { rewrite Hps, <- Hlen, firstn_app, firstn_all, Nat.sub_diag. simpl.
    apply app_nil_r. }
  rewrite Hfirst. rewrite Hps, loop_app in Hloop.
  destruct (loop i l1 st) as [stk | e] eqn:H1; simpl in Hloop; [ | discriminate ].
  exists stk. split; [ reflexivity | ].
  destruct (loop_equity _ _ _ _ H1) as (tl1 & Heq1 & Hl1).
  destruct (loop_body (i + length l1) p stk) as [st2 | e] eqn:Hb;
    simpl in Hloop; [ | discriminate ].
  destruct (loop_equity _ _ _ _ Hloop) as (tl2 & Heq2 & _).
  rewrite (loop_body_equity _ _ _ _ Hb) in Heq2.
  assert (Hlk : length (equity_curve stk) = length (equity_curve st) + k).
  { rewrite Heq1, length_app. lia. }
  split; [ exact Hlk | ].
  rewrite Heq2, <- Hlk, <- app_assoc, nth_error_app2 by lia.
  rewrite Nat.sub_diag. reflexivity.
Qed.

(** The loop returns when every bar has a signal and a volatility entry. *)
Lemma loop_returns (i : nat) (ps : list float) (st : State) :
  i + length ps <= length signal ->
  i + length ps <= length atr ->
  exists st', loop i ps st = Py.Ok st'.
Proof.
  revert i st. induction ps as [| p ps IH]; intros i st Hs Ha; simpl in *.
  - eexists; reflexivity.
  - destruct (loop_body i p st) as [st1 | e] eqn:Hb; simpl.
    + apply IH; lia.
    + unfold loop_body in Hb. apply entry_logic_raise in Hb.
      destruct Hb as [_ [Hn | (s & _ & _ & Hn)]];
        apply nth_error_None in Hn; lia.
Qed.

(** Where the loop raises: the bars before some bar ran normally and the
    body of that bar raised. *)
Lemma loop_raises (i : nat) (ps : list float) (st : State) (e : Py.exn) :
  loop i ps st = Py.Raise e <->
  exists k p stk,
    nth_error ps k = Some p
    /\ loop i (firstn k ps) st = Py.Ok stk
    /\ loop_body (i + k) p stk = Py.Raise e.
Proof.
  revert i st. induction ps as [| p ps IH]; intros i st; simpl.
  - split; [ discriminate | ]. intros (k & q & stk & Hk & _).
    destruct k; discriminate.
  - destruct (loop_body i p st) as [st1 | e1] eqn:Hb; simpl.
    + rewrite IH. split.
      * intros (k & q & stk & Hk & Hpre & Hr).
        exists (S k), q, stk. simpl. rewrite Hb. simpl.
        replace (i + S k) with (S i + k) by lia. repeat split; assumption.
      * intros (k & q & stk & Hk & Hpre & Hr). destruct k as [| k]; simpl in *.
        { injection Hk as <-. injection Hpre as <-.
          rewrite Nat.add_0_r in Hr. congruence. }
        rewrite Hb in Hpre. simpl in Hpre.
        replace (i + S k) with (S i + k) in Hr by lia.
        exists k, q, stk. repeat split; assumption.
    + split.
      * intros [= <-]. exists 0, p, st. simpl. rewrite Nat.add_0_r.
        repeat split; assumption.
      * intros (k & q & stk & Hk & Hpre & Hr). destruct k as [| k]; simpl in *.
        { injection Hk as <-. injection Hpre as <-.
          rewrite Nat.add_0_r in Hr. congruence. }
        rewrite Hb in Hpre. discriminate.
Qed.

Lemma backtest_returns :
  length price <= length signal ->
  length price <= length atr ->
  exists eq trs, backtest = Py.Ok (eq, trs).
Proof.
  intros Hs Ha. unfold backtest.
  destruct (loop_returns 0 price init_state Hs Ha) as (st & ->).
  simpl. eauto.
Qed.

Lemma backtest_inv (eq : list float) (trs : list TradeResult) :
  backtest = Py.Ok (eq, trs) ->
  exists st, loop 0 price init_state = Py.Ok st
             /\ eq = equity_curve st /\ trs = trades st.
Proof.
  unfold backtest. destruct (loop 0 price init_state) as [st | e]; simpl;
    [ | discriminate ].
  intros [= <- <-]. exists st. repeat split.
Qed.

(** ** Claims about a whole run *)

(** C2.  Every bar appends exactly one equity value, computed from the
    locals the bar starts with, before its exit and entry logic run:
    [balance + (close - entry_price) * qty * side] with a position open,
    [balance] when flat.  The returned curve therefore has one value per
    bar, the value at place [i] being the mark of the locals that bars
    [0 .. i-1] produced; and the run does return when every bar has a
    signal and a volatility entry. *)
Theorem equity_one_value_per_bar :
  (forall i p st st', loop_body i p st = Py.Ok st' ->
     equity_curve st' =
     equity_curve st ++
       [match position st with
        | Some pos =>
            (balance st
             + (p - pos_entry_price pos) * pos_qty pos
               * Py.of_int (pos_side pos))%float
        | None => balance st
        end])
  /\ (forall eq trs, backtest = Py.Ok (eq, trs) ->
      length eq = length price
      /\ forall i p, nth_error price i = Some p ->
         exists st,
           loop 0 (firstn i price) init_state = Py.Ok st
           /\ nth_error eq i =
              Some match position st with
                   | Some pos =>
                       (balance st
                        + (p - pos_entry_price pos) * pos_qty pos
                          * Py.of_int (pos_side pos))%float
                   | None => balance st
                   end)
  /\ (length price <= length signal ->
      length price <= length atr ->
      exists eq trs, backtest = Py.Ok (eq, trs) /\ length eq = length price).
Proof.
  assert (Hlen : forall eq trs, backtest = Py.Ok (eq, trs) ->
                   length eq = length price).
  { intros eq trs H. destruct (backtest_inv eq trs H) as (st & Hl & -> & _).
    destruct (loop_equity _ _ _ _ Hl) as (tl & -> & <-). reflexivity. }
  split; [ | split ].
  - intros i p st st' H. apply (loop_body_equity i p st st' H).
  - intros eq trs H. split; [ exact (Hlen eq trs H) | ].
    intros i p Hi. destruct (backtest_inv eq trs H) as (st & Hl & -> & _).
    destruct (loop_equity_nth 0 price init_state st i p Hl Hi)
      as (stk & Hpre & _ & Hn).
    exists stk. split; [ exact Hpre | exact Hn ].
  - intros Hs Ha. destruct (backtest_returns Hs Ha) as (eq & trs & H).
    exists eq, trs. split; [ exact H | exact (Hlen eq trs H) ].
Qed.

(** C9.  With at least one bar, the first value of the returned equity
    curve is [initial_capital]: the run starts flat with that balance and
    bar 0 is marked before its entry logic runs. *)
Theorem first_equity_is_initial_capital :
  price <> [] ->
  (forall eq trs, backtest = Py.Ok (eq, trs) ->
     nth_error eq 0 = Some initial_capital)
  /\ (length price <= length signal ->
      length price <= length atr ->
      exists eq trs, backtest = Py.Ok (eq, trs)
                     /\ nth_error eq 0 = Some initial_capital).
Proof.
  intros Hne.
  assert (H0 : forall eq trs, backtest = Py.Ok (eq, trs) ->
                 nth_error eq 0 = Some initial_capital).
  { intros eq trs H. destruct (backtest_inv eq trs H) as (st & Hl & -> & _).
    destruct price as [| p ps] eqn:Hp; [ contradiction Hne; reflexivity | ].
    destruct (loop_equity_nth 0 (p :: ps) init_state st 0 p Hl eq_refl)
      as (stk & Hpre & _ & Hn).
    simpl in Hpre. injection Hpre as <-. exact Hn. }
  split; [ exact H0 | ].
  intros Hs Ha. destruct (backtest_returns Hs Ha) as (eq & trs & H).
  exists eq, trs. split; [ exact H | exact (H0 eq trs H) ].
Qed.

(** C4 (as amended).  Nothing is validated before the loop.  A run raises
    exactly when the loop reaches a bar [i], after running bars [0 .. i-1]
    in full, at which no position is open once the exit logic has run and
    either the signal series has no element [i], or [signal[i]] is nonzero
    and the volatility series has no element [i]; the exception is then
    [IndexError].  When both series are at least as long as the price
    series the run returns, whatever the values of the fee, slippage and
    risk arguments. *)
Theorem raises_only_inside_loop :
  (forall e,
     backtest = Py.Raise e <->
     exists i p st,
       nth_error price i = Some p
       /\ loop 0 (firstn i price) init_state = Py.Ok st
       /\ length (equity_curve st) = i
       /\ position (exit_logic i p (mark_to_market p st)) = None
       /\ (nth_error signal i = None
           \/ exists s, nth_error signal i = Some s /\ s <> 0%Z
                        /\ nth_error atr i = None))
  /\ (length price <= length signal ->
      length price <= length atr ->
      exists eq trs, backtest = Py.Ok (eq, trs)).
Proof.
  split; [ | exact backtest_returns ].
  intros e.
  assert (Hb : backtest = Py.Raise e <-> loop 0 price init_state = Py.Raise e).
  { unfold backtest. destruct (loop 0 price init_state); simpl;
      split; congruence. }
  rewrite Hb, loop_raises. split.
  - intros (k & p & stk & Hk & Hpre & Hr).
    exists k, p, stk. simpl in Hr. unfold loop_body in Hr.
    apply entry_logic_raise in Hr. destruct Hr as [Hnone Hidx].
    destruct (loop_equity _ _ _ _ Hpre) as (tl & Heq & Hlen).
    repeat split; try assumption.
    assert (k < length price) by (apply nth_error_Some; congruence).
    rewrite Heq. simpl. rewrite Hlen, length_firstn. lia.
  - intros (k & p & stk & Hk & Hpre & _ & Hnone & Hidx).
    exists k, p, stk. repeat split; try assumption.
    simpl. unfold loop_body. apply entry_logic_raise. split; assumption.
Qed.

(** ** The ledger is chronological *)

Lemma last_exit_snoc (lo : nat) (ts : list TradeResult) (t : TradeResult) :
  last_exit lo (ts ++ [t]) = exit_idx t.
Proof.
  revert lo. induction ts as [| t0 ts IH]; intros lo; simpl;
    [ reflexivity | apply IH ].
Qed.

Lemma chain_snoc (lo : nat) (ts : list TradeResult) (t : TradeResult) :
  chain lo ts ->
  last_exit lo ts <= entry_idx t ->
  entry_idx t < exit_idx t ->
  chain lo (ts ++ [t]).
Proof.
  revert lo. induction ts as [| t0 ts IH]; intros lo Hc Hl Ht; simpl in *.
  - repeat split; assumption.
  - destruct Hc as (H1 & H2 & H3). repeat split; try assumption.
    apply IH; assumption.
Qed.

Lemma chain_In (lo : nat) (ts : list TradeResult) (t : TradeResult) :
  chain lo ts -> In t ts -> entry_idx t < exit_idx t.
Proof.
  revert lo. induction ts as [| t0 ts IH]; intros lo Hc Hin; simpl in *.
  - contradiction.
  - destruct Hc as (_ & H2 & H3). destruct Hin as [<- | Hin];
      [ exact H2 | exact (IH _ H3 Hin) ].
Qed.

Lemma chain_consecutive (lo : nat) (ts : list TradeResult)
    (k : nat) (t1 t2 : TradeResult) :
  chain lo ts ->
  nth_error ts k = Some t1 ->
  nth_error ts (S k) = Some t2 ->
  exit_idx t1 <= entry_idx t2.
Proof.
  revert lo k. induction ts as [| t0 ts IH]; intros lo k Hc H1 H2.
  - destruct k; discriminate.
  - destruct Hc as (_ & _ & H3). destruct k as [| k]; simpl in *.
    + injection H1 as <-. destruct ts as [| t ts']; [ discriminate | ].
      injection H2 as <-. simpl in H3. tauto.
    + exact (IH _ _ H3 H1 H2).
Qed.

Lemma exit_logic_cases (i : nat) (p : float) (st : State) :
  exit_logic i p st = st
  \/ exists pos,
       position st = Some pos
       /\ exit_logic i p st =
          mkState (balance st + realized_pnl pos p)%float (equity_curve st) None
                  (trades st ++ [closed_trade pos i p]).
Proof.
  destruct (position st) as [pos |] eqn:Hpos.
  - destruct (exits pos p) eqn:Hex.
    + right. exists pos. split; [ reflexivity | ].
      apply exit_logic_hit; assumption.
    + left. apply (exit_logic_hold i p st pos); assumption.
  - left. apply exit_logic_flat; assumption.
Qed.

Lemma loop_body_ledger (i : nat) (p : float) (st st' : State) :
  ledger_inv i st -> loop_body i p st = Py.Ok st' -> ledger_inv (S i) st'.
Proof.
  intros [Hc Hp] Hb. unfold loop_body in Hb.
  set (stm := mark_to_market p st) in *.
  assert (Hm : ledger_inv i stm).
  { subst stm. rewrite mark_to_market_eq. split; assumption. }
  clearbody stm. clear Hc Hp.
  assert (H1 : chain 0 (trades (exit_logic i p stm))
               /\ match position (exit_logic i p stm) with
                  | Some pos =>
                      last_exit 0 (trades (exit_logic i p stm))
                      <= pos_entry_idx pos /\ pos_entry_idx pos < S i
                  | None => last_exit 0 (trades (exit_logic i p stm)) <= i
                  end).
  { destruct Hm as [Hc Hp].
    destruct (exit_logic_cases i p stm) as [-> | (pos & Hpos & ->)].
    - split; [ exact Hc | ]. destruct (position stm); lia.
    - rewrite Hpos in Hp. simpl. split.
      + apply chain_snoc; simpl; [ exact Hc | lia | lia ].
      + rewrite last_exit_snoc. simpl. lia. }
  destruct H1 as [Hc1 Hp1].
  destruct (entry_logic_inv i p _ st' Hb)
    as [-> | (Hnone & s & ai & _ & _ & _ & _ & _ & ->)].
  - split; [ exact Hc1 | ]. destruct (position (exit_logic i p stm)); lia.
  - rewrite Hnone in Hp1. split; [ exact Hc1 | ]. simpl. lia.
Qed.

Lemma loop_ledger (i : nat) (ps : list float) (st st' : State) :
  ledger_inv i st -> loop i ps st = Py.Ok st' ->
  ledger_inv (i + length ps) st'.
Proof.
  revert i st. induction ps as [| p ps IH]; intros i st Hinv; simpl.
  - intros [= <-]. rewrite Nat.add_0_r. exact Hinv.
  - destruct (loop_body i p st) as [st1 | e] eqn:Hb; simpl; [ | discriminate ].
    intros Hl. replace (i + S (length ps)) with (S i + length ps) by lia.
    apply (IH (S i) st1); [ | exact Hl ].
    apply (loop_body_ledger i p st st1 Hinv Hb).
Qed.

(** C10.  In the returned ledger every trade is entered strictly before
    it is exited, and each trade is entered no earlier than the exit of
    the trade recorded just before it. *)
Theorem ledger_chronological (eq : list float) (trs : list TradeResult) :
  backtest = Py.Ok (eq, trs) ->
  (forall t, In t trs -> entry_idx t < exit_idx t)
  /\ (forall k t1 t2,
        nth_error trs k = Some t1 ->
        nth_error trs (S k) = Some t2 ->
        exit_idx t1 <= entry_idx t2).
Proof.
  intros H. destruct (backtest_inv eq trs H) as (st & Hl & _ & ->).
  assert (Hinit : ledger_inv 0 init_state) by (split; simpl; [ exact I | lia ]).
  destruct (loop_ledger 0 price init_state st Hinit Hl) as [Hc _].
  split.
  - intros t Hin. exact (chain_In 0 _ t Hc Hin).
  - intros k t1 t2 H1 H2. exact (chain_consecutive 0 _ k t1 t2 Hc H1 H2).
Qed.

(** The ledger only grows. *)
Lemma loop_body_trades (i : nat) (p : float) (st st' : State) :
  loop_body i p st = Py.Ok st' -> exists l, trades st' = trades st ++ l.
Proof.
  unfold loop_body. intros H. apply entry_logic_trades in H.
  destruct H as [-> _]. rewrite mark_to_market_eq.
  match goal with
  | |- context [exit_logic i p ?x] =>
      destruct (exit_logic_cases i p x) as [-> | (pos & _ & ->)]
  end; simpl.
  - exists []. symmetry. apply app_nil_r.
  - eexists. reflexivity.
Qed.

Lemma loop_trades (i : nat) (ps : list float) (st st' : State) :
  loop i ps st = Py.Ok st' -> exists l, trades st' = trades st ++ l.
Proof.
  revert i st. induction ps as [| p ps IH]; intros i st; simpl.
  - intros [= <-]. exists []. symmetry. apply app_nil_r.
  - destruct (loop_body i p st) as [st1 | e] eqn:Hb; simpl; [ | discriminate ].
    intros H. destruct (IH _ _ H) as (l2 & ->).
    destruct (loop_body_trades i p st st1 Hb) as (l1 & ->).
    exists (l1 ++ l2). symmetry. apply app_assoc.
Qed.

(** ** Binary64 facts the further properties rest on *)

Local Open Scope float_scope.

Lemma SFcompare_refl (x : spec_float) :
  x <> S754_nan -> SFcompare x x = Some Eq.
Proof.
  destruct x as [s | s | | s m e]; simpl; intros H.
  - reflexivity.
  - destruct s; reflexivity.
  - contradiction H; reflexivity.
  - rewrite Z.compare_refl.
    change (Pos.compare_cont Eq m m) with (Pos.compare m m).
    rewrite Pos.compare_refl. destruct s; reflexivity.
Qed.

(** [x < y] gives [x <= y]. *)
Lemma ltb_leb (x y : float) : (x <? y) = true -> (x <=? y) = true.
Proof.
  rewrite ltb_spec, leb_spec. unfold SFltb, SFleb.
  destruct (SFcompare _ _) as [[ | | ] | ]; congruence.
Qed.

(** A value something is below is not NaN. *)
Lemma ltb_not_nan (x y : float) : (x <? y) = true -> is_nan y = false.
Proof.
  unfold is_nan. rewrite ltb_spec, eqb_spec. unfold SFltb, SFeqb.
  intros H. rewrite SFcompare_refl; [ reflexivity | ].
  intros E. rewrite E in H. destruct (Prim2SF x); discriminate.
Qed.

(** NaN compares with nothing. *)
Lemma leb_nan_l (x : float) : (nan <=? x) = false.
Proof. rewrite leb_spec. reflexivity. Qed.

Lemma leb_nan_r (x : float) : (x <=? nan) = false.
Proof.
  rewrite leb_spec. change (Prim2SF nan) with S754_nan.
  unfold SFleb. destruct (Prim2SF x); reflexivity.
Qed.

(** NaN absorbs the arithmetic of the entry logic. *)
Lemma mul_nan_l (x : float) : nan * x = nan.
Proof.
  apply Prim2SF_inj. rewrite mul_spec. reflexivity.
Qed.

Lemma add_nan_l (x : float) : nan + x = nan.
Proof.
  apply Prim2SF_inj. rewrite add_spec. reflexivity.
Qed.

Lemma sub_nan_l (x : float) : nan - x = nan.
Proof.
  apply Prim2SF_inj. rewrite sub_spec. reflexivity.
Qed.

(** ** The position sizer *)

(** The sizer returns [0.0] or its quotient, and the quotient only when
    that is above zero. *)
Lemma atr_position_size_cases (balance risk a p stop_mult : float) :
  let x := balance * risk / Py.max 1e-8 (a * stop_mult) in
  (atr_position_size balance risk a p stop_mult = x /\ (0 <? x) = true)
  \/ (atr_position_size balance risk a p stop_mult = 0 /\ (0 <? x) = false).
Proof.
  intros x. unfold atr_position_size. cbv zeta. fold x.
  unfold Py.max. destruct (0 <? x) eqn:Hx.
  - left. split; reflexivity.
  - right. split; reflexivity.
Qed.

(** X1.  Whatever its arguments, NaN and infinities included, the sizer
    returns a quantity that is not NaN and not below zero: either [0.0]
    or the strictly positive quotient. *)
Theorem sizer_never_negative (balance risk a p stop_mult : float) :
  let q := atr_position_size balance risk a p stop_mult in
  Py.isnan q = false
  /\ (0 <=? q) = true
  /\ (q = 0 \/ (0 <? q) = true).
Proof.
  intros q. subst q.
  destruct (atr_position_size_cases balance risk a p stop_mult)
    as [[-> Hx] | [-> _]].
  - split; [ exact (ltb_not_nan 0 _ Hx) | ].
    split; [ exact (ltb_leb 0 _ Hx) | right; exact Hx ].
  - split; [ reflexivity | split; [ reflexivity | left; reflexivity ] ].
Qed.

(** ** Induction over the bars of a run *)

Local Open Scope nat_scope.

Lemma firstn_snoc_nth (A : Type) (l : list A) (i : nat) (x : A) :
  nth_error l i = Some x -> firstn (S i) l = firstn i l ++ [x].
Proof.
  revert i. induction l as [| a l IH]; intros [| i] H; simpl in *;
    try discriminate.
  - injection H as ->. reflexivity.
  - rewrite (IH i H). reflexivity.
Qed.

Lemma reached_0 : reached 0 init_state.
Proof. split; [ lia | reflexivity ]. Qed.

Lemma reached_S (i : nat) (p : float) (st st' : State) :
  nth_error price i = Some p -> reached i st ->
  loop_body i p st = Py.Ok st' -> reached (S i) st'.
Proof.
  intros Hp [Hle Hl] Hb. split.
  - apply nth_error_Some. congruence.
  - rewrite (firstn_snoc_nth _ _ _ _ Hp), loop_app, Hl. simpl.
    rewrite length_firstn, Nat.min_l by exact Hle. rewrite Hb. reflexivity.
Qed.

Lemma reached_S_inv (i : nat) (st' : State) :
  reached (S i) st' ->
  exists p st,
    nth_error price i = Some p /\ reached i st
    /\ loop_body i p st = Py.Ok st'.
Proof.
  intros [Hle Hl].
  destruct (nth_error price i) as [p |] eqn:Hp;
    [ | apply nth_error_None in Hp; lia ].
  rewrite (firstn_snoc_nth _ _ _ _ Hp), loop_app in Hl.
  destruct (loop 0 (firstn i price) init_state) as [st | e] eqn:Hpre;
    simpl in Hl; [ | discriminate ].
  rewrite length_firstn, Nat.min_l in Hl by lia.
  destruct (loop_body i p st) as [st1 | e] eqn:Hb; simpl in Hl;
    [ | discriminate ].
  injection Hl as <-. exists p, st.
  repeat split; [ lia | assumption | assumption ].
Qed.

(** A property of the initial locals that every bar preserves holds of
    the locals whenever a bar starts. *)
Lemma reached_ind (P : nat -> State -> Prop) :
  P 0 init_state ->
  (forall i p st st',
      nth_error price i = Some p -> reached i st -> P i st ->
      loop_body i p st = Py.Ok st' -> P (S i) st') ->
  forall i st, reached i st -> P i st.
Proof.
  intros H0 Hstep. induction i as [| i IH]; intros st Hr.
  - destruct Hr as [_ Hl]. simpl in Hl. injection Hl as <-. exact H0.
  - destruct (reached_S_inv i st Hr) as (p & st0 & Hp & Hr0 & Hb).
    exact (Hstep i p st0 st Hp Hr0 (IH st0 Hr0) Hb).
Qed.

Lemma backtest_reached (eq : list float) (trs : list TradeResult) :
  backtest = Py.Ok (eq, trs) ->
  exists st, reached (length price) st
             /\ eq = equity_curve st /\ trs = trades st.
Proof.
  intros H. destruct (backtest_inv eq trs H) as (st & Hl & -> & ->).
  exists st. split; [ | split; reflexivity ].
  split; [ lia | ]. rewrite firstn_all. exact Hl.
Qed.

(** The three ways a bar can end normally: nothing but the equity value
    changed; the open position was closed; a position was opened, after a
    close or from flat locals. *)
Lemma loop_body_cases (i : nat) (p : float) (st st' : State) :
  loop_body i p st = Py.Ok st' ->
  let stm := mark_to_market p st in
  let ste := exit_logic i p stm in
  (ste = stm
   \/ exists pos, position st = Some pos /\ exits pos p = true
        /\ ste = mkState (balance st + realized_pnl pos p)%float
                   (equity_curve stm) None
                   (trades st ++ [closed_trade pos i p]))
  /\ (st' = ste
      \/ position ste = None
         /\ exists s ai,
              nth_error signal i = Some s /\ s <> 0%Z
              /\ nth_error atr i = Some ai
              /\ (entry_vol ai <=? 0)%float = false
              /\ (entry_qty ste ai p <=? 0)%float = false
              /\ st' = mkState (balance ste) (equity_curve ste)
                         (Some (opened s (entry_vol ai) (entry_qty ste ai p) p i))
                         (trades ste)).
Proof.
  intros Hb stm ste. unfold loop_body in Hb. fold stm in Hb. fold ste in Hb.
  split.
  - subst ste. destruct (position stm) as [pos |] eqn:Hpos.
    + destruct (exits pos p) eqn:Hex.
      * right. exists pos. rewrite (exit_logic_hit i p stm pos Hpos Hex).
        subst stm. rewrite mark_to_market_eq in *. simpl in *.
        repeat split; assumption.
      * left. apply (exit_logic_hold i p stm pos Hpos Hex).
    + left. apply exit_logic_flat. exact Hpos.
  - destruct (entry_logic_inv i p ste st' Hb) as [-> | (Hn & s & ai & H)].
    + left. reflexivity.
    + right. split; [ exact Hn | ]. exists s, ai. exact H.
Qed.

(** ** Accounting and the shape of the ledger *)

Lemma booked_balance_snoc (trs : list TradeResult) (t : TradeResult) :
  booked_balance (trs ++ [t]) = (booked_balance trs + pnl t)%float.
Proof. unfold booked_balance. rewrite fold_left_app. reflexivity. Qed.

(** How one bar moves the ledger and the balance. *)
Lemma loop_body_booking (i : nat) (p : float) (st st' : State) :
  loop_body i p st = Py.Ok st' ->
  (trades st' = trades st /\ balance st' = balance st)
  \/ exists t, trades st' = trades st ++ [t] /\ exit_idx t = i
               /\ balance st' = (balance st + pnl t)%float.
Proof.
  intros Hb. destruct (loop_body_cases i p st st' Hb) as [Hex Hent].
  assert (Hst' : trades st' = trades (exit_logic i p (mark_to_market p st))
                 /\ balance st' = balance (exit_logic i p (mark_to_market p st))).
  { destruct Hent as [-> | (_ & s & ai & _ & _ & _ & _ & _ & ->)];
      split; reflexivity. }
  destruct Hst' as [-> ->].
  destruct Hex as [-> | (pos & _ & _ & ->)].
  - left. rewrite mark_to_market_eq. split; reflexivity.
  - right. eexists. simpl. repeat split.
Qed.

(** X2.  The balance moves only when a trade is booked, and then by that
    trade's [pnl]: a bar either leaves ledger and balance alone or appends
    one trade, exited on that bar, and adds its [pnl] to the balance.  So
    whenever a bar starts the balance is the initial capital with the
    [pnl] of every booked trade added in ledger order, and on a bar that
    starts flat this is the equity value the run returns for it. *)
Theorem balance_is_capital_plus_pnl :
  (forall i p st st', loop_body i p st = Py.Ok st' ->
     (trades st' = trades st /\ balance st' = balance st)
     \/ exists t, trades st' = trades st ++ [t] /\ exit_idx t = i
                  /\ balance st' = (balance st + pnl t)%float)
  /\ (forall i st, reached i st ->
        balance st = fold_left (fun b t => (b + pnl t)%float) (trades st)
                               initial_capital)
  /\ (forall eq trs i st,
        backtest = Py.Ok (eq, trs) -> reached i st -> i < length price ->
        position st = None ->
        nth_error eq i =
        Some (fold_left (fun b t => (b + pnl t)%float) (trades st)
                        initial_capital)).
Proof.
  assert (Hinv : forall i st, reached i st ->
                   balance st = booked_balance (trades st)).
  { apply reached_ind; [ reflexivity | ].
    intros i p st st' _ _ IH Hb.
    destruct (loop_body_booking i p st st' Hb)
      as [[-> ->] | (t & -> & _ & ->)]; [ exact IH | ].
    rewrite booked_balance_snoc, IH. reflexivity. }
  split; [ exact loop_body_booking | split; [ exact Hinv | ] ].
  intros eq trs i st Hbt [_ Hpre] Hi Hflat.
  destruct (backtest_inv eq trs Hbt) as (stf & Hl & -> & _).
  destruct (nth_error price i) as [p |] eqn:Hp;
    [ | apply nth_error_None in Hp; lia ].
  destruct (loop_equity_nth 0 price init_state stf i p Hl Hp)
    as (stk & Hk & _ & Hn).
  assert (stk = st) by congruence. subst stk.
  simpl in Hn. rewrite Hn. unfold marked_equity. rewrite Hflat.
  rewrite (Hinv i st (conj (Nat.lt_le_incl _ _ Hi) Hpre)). reflexivity.
Qed.

Lemma exits_side (pos : Position) (p : float) :
  exits pos p = true -> pos_side pos = 1%Z \/ pos_side pos = (-1)%Z.
Proof.
  unfold exits, stop_hit, tp_hit.
  destruct (pos_side pos =? 1)%Z eqn:E1; [ apply Z.eqb_eq in E1; tauto | ].
  destruct (pos_side pos =? -1)%Z eqn:E2; [ apply Z.eqb_eq in E2; tauto | ].
  simpl. discriminate.
Qed.

(** A quantity that passes the guard [qty <= 0] of line 149 is above zero. *)
Lemma sized_quantity_positive (b r a p m : float) :
  (atr_position_size b r a p m <=? 0)%float = false ->
  (0 <? atr_position_size b r a p m)%float = true.
Proof.
  intros H. destruct (atr_position_size_cases b r a p m) as [[E Hx] | [E _]].
  - rewrite E. exact Hx.
  - rewrite E in H. discriminate.
Qed.

Lemma reached_well_formed (i : nat) (st : State) :
  reached i st ->
  Forall trade_ok (trades st)
  /\ forall pos, position st = Some pos -> position_ok pos.
Proof.
  revert i st. apply reached_ind.
  - split; [ constructor | discriminate ].
  - intros i p st st' Hp _ [Htr Hps] Hb.
    destruct (loop_body_cases i p st st' Hb) as [Hex Hent].
    set (stm := mark_to_market p st) in *.
    set (ste := exit_logic i p stm) in *.
    assert (Hm : trades stm = trades st /\ position stm = position st)
      by (subst stm; rewrite mark_to_market_eq; split; reflexivity).
    destruct Hm as [Hmt Hmp].
    assert (He : Forall trade_ok (trades ste)
                 /\ forall pos, position ste = Some pos -> position_ok pos).
    { destruct Hex as [-> | (pos & Hpos & Hx & ->)].
      - rewrite Hmt, Hmp. split; assumption.
      - simpl. split; [ | discriminate ].
        apply Forall_app. split; [ exact Htr | ].
        constructor; [ | constructor ].
        destruct (Hps pos Hpos) as (Hsig & _ & Hq & pe & Hpe & Hep).
        unfold trade_ok, closed_trade, exit_fill. simpl.
        split; [ exact (exits_side pos p Hx) | ].
        split; [ exact Hsig | ]. split; [ exact Hq | ].
        split; [ reflexivity | ].
        exists pe, p. repeat split; assumption. }
    destruct He as [Hte Hpe].
    destruct Hent as [-> | (Hn & s & ai & Hs & Hnz & Ha & Hv & Hq & ->)].
    + split; assumption.
    + simpl. split; [ exact Hte | ].
      intros pos [= <-]. unfold position_ok, opened. simpl.
      split; [ exact Hs | ]. split; [ exact Hnz | ].
      split; [ apply sized_quantity_positive; exact Hq | ].
      exists p. split; [ exact Hp | reflexivity ].
Qed.

(** X3.  Every trade of a returned ledger was opened on the signal of its
    entry bar, and that signal is [+1] or [-1]: a position opened on any
    other nonzero signal is never booked.  Its quantity is above zero,
    its entry and exit prices are the closes of its entry and exit bars
    moved by the slippage rate, its exit bar lies inside the series, and
    [ret] is [pnl / max(1e-9, initial_capital)]. *)
Theorem every_trade_well_formed (eq : list float) (trs : list TradeResult) :
  backtest = Py.Ok (eq, trs) ->
  forall t, In t trs ->
    (side t = 1%Z \/ side t = (-1)%Z)
    /\ nth_error signal (entry_idx t) = Some (side t)
    /\ (0 <? qty t)%float = true
    /\ exit_idx t < length price
    /\ ret t = (pnl t / Py.max 1e-9 initial_capital)%float
    /\ exists pe px,
         nth_error price (entry_idx t) = Some pe
         /\ nth_error price (exit_idx t) = Some px
         /\ entry_price t =
            (if (side t =? 1)%Z then pe * (1 + slippage_pct)
             else pe * (1 - slippage_pct))%float
         /\ exit_price t =
            (if (side t =? 1)%Z then px * (1 - slippage_pct)
             else px * (1 + slippage_pct))%float.
Proof.
  intros H t Hin.
  destruct (backtest_reached eq trs H) as (st & Hr & _ & ->).
  destruct (reached_well_formed _ st Hr) as [Hall _].
  rewrite Forall_forall in Hall.
  destruct (Hall t Hin) as (Hs & Hsig & Hq & Hret & pe & px & Hpe & Hpx & He & Hx).
  repeat split; try assumption.
  - apply nth_error_Some. congruence.
  - exists pe, px. repeat split; assumption.
Qed.

Lemma chain_length (lo : nat) (ts : list TradeResult) :
  chain lo ts -> lo + length ts <= last_exit lo ts.
Proof.
  revert lo. induction ts as [| t ts IH]; intros lo Hc; simpl in *; [ lia | ].
  destruct Hc as (H1 & H2 & H3). specialize (IH _ H3). lia.
Qed.

Lemma chain_exit_bounds (lo : nat) (ts : list TradeResult) (t : TradeResult) :
  chain lo ts -> In t ts -> lo < exit_idx t <= last_exit lo ts.
Proof.
  revert lo. induction ts as [| t0 ts IH]; intros lo Hc Hin; simpl in *;
    [ contradiction | ].
  destruct Hc as (H1 & H2 & H3).
  assert (Hmono : exit_idx t0 <= last_exit (exit_idx t0) ts).
  { pose proof (chain_length _ _ H3). lia. }
  destruct Hin as [<- | Hin]; [ lia | ].
  specialize (IH _ H3 Hin). lia.
Qed.

Lemma chain_exits_increase (lo : nat) (ts : list TradeResult)
    (k : nat) (t1 t2 : TradeResult) :
  chain lo ts ->
  nth_error ts k = Some t1 -> nth_error ts (S k) = Some t2 ->
  exit_idx t1 < exit_idx t2.
Proof.
  intros Hc H1 H2.
  pose proof (chain_consecutive lo ts k t1 t2 Hc H1 H2).
  pose proof (chain_In lo ts t2 Hc (nth_error_In _ _ H2)). lia.
Qed.

Lemma reached_last_exit (i : nat) (st : State) :
  reached i st -> trades st = [] \/ last_exit 0 (trades st) < i.
Proof.
  revert i st. apply reached_ind; [ left; reflexivity | ].
  intros i p st st' _ _ IH Hb.
  destruct (loop_body_booking i p st st' Hb)
    as [[-> _] | (t & -> & Hx & _)].
  - destruct IH as [IH | IH]; [ left; exact IH | right; lia ].
  - right. rewrite last_exit_snoc. lia.
Qed.

(** X4.  At most one trade is booked per bar and none on bar 0: in a
    returned ledger the exit bars increase strictly, each lies in
    [1 .. len(price) - 1], and there are at most [len(price) - 1]
    trades. *)
Theorem trades_fewer_than_bars (eq : list float) (trs : list TradeResult) :
  backtest = Py.Ok (eq, trs) ->
  (forall k t1 t2,
     nth_error trs k = Some t1 -> nth_error trs (S k) = Some t2 ->
     exit_idx t1 < exit_idx t2)
  /\ (forall t, In t trs -> 1 <= exit_idx t < length price)
  /\ length trs <= length price - 1.
Proof.
  intros H.
  destruct (backtest_reached eq trs H) as (st & Hr & _ & ->).
  destruct (backtest_inv _ _ H) as (st0 & Hl & _ & Ht).
  assert (Hinit : ledger_inv 0 init_state) by (split; simpl; [ exact I | lia ]).
  destruct (loop_ledger 0 price init_state st0 Hinit Hl) as [Hc _].
  rewrite <- Ht in Hc. clear st0 Hl Ht Hinit.
  pose proof (reached_last_exit _ st Hr) as Hlast.
  split; [ intros k t1 t2; apply (chain_exits_increase 0 _ k t1 t2 Hc) | ].
  split.
  - intros t Hin. pose proof (chain_exit_bounds 0 _ t Hc Hin).
    destruct Hlast as [E | Hlast]; [ rewrite E in Hin; contradiction | lia ].
  - pose proof (chain_length 0 _ Hc).
    destruct Hlast as [E | Hlast]; [ rewrite E; simpl; lia | lia ].
Qed.

(** ** Runs that stay flat *)

Lemma exit_after_mark_flat (i : nat) (p : float) (st : State) :
  position st = None ->
  exit_logic i p (mark_to_market p st) =
  mkState (balance st) (equity_curve st ++ [balance st]) None (trades st).
Proof.
  intros Hflat.
  rewrite exit_logic_flat by (rewrite mark_to_market_eq; exact Hflat).
  rewrite mark_to_market_eq. unfold marked_equity. rewrite Hflat.
  reflexivity.
Qed.

Lemma loop_body_idle (i : nat) (p : float) (st : State) :
  position st = None -> idle i ->
  loop_body i p st =
  Py.Ok (mkState (balance st) (equity_curve st ++ [balance st]) None
                 (trades st)).
Proof.
  intros Hflat Hidle. unfold loop_body.
  rewrite (exit_after_mark_flat i p st Hflat).
  destruct Hidle as [Hs | (s & ai & Hs & Ha & Hv)].
  - unfold entry_logic, Py.bind, Py.index. simpl. rewrite Hs. reflexivity.
  - eapply entry_logic_skip;
      [ reflexivity | exact Hs | exact Ha | left; exact Hv ].
Qed.

Lemma loop_idle (ps : list float) (i : nat) (st : State) :
  position st = None ->
  (forall k, k < length ps -> idle (i + k)) ->
  loop i ps st =
  Py.Ok (mkState (balance st)
                 (equity_curve st ++ repeat (balance st) (length ps))
                 None (trades st)).
Proof.
  revert i st. induction ps as [| p ps IH]; intros i st Hflat Hidle; simpl.
  - rewrite app_nil_r. destruct st; simpl in *. subst. reflexivity.
  - rewrite (loop_body_idle i p st Hflat).
    2:{ rewrite <- (Nat.add_0_r i). apply Hidle. simpl. lia. }
    simpl. rewrite IH; simpl.
    + rewrite <- app_assoc. reflexivity.
    + reflexivity.
    + intros k Hk. assert (Hi := Hidle (S k)).
      replace (i + S k) with (S i + k) in Hi by lia.
      apply Hi. simpl. lia.
Qed.

Lemma backtest_idle :
  (forall k, k < length price -> idle k) ->
  backtest = Py.Ok (repeat initial_capital (length price), []).
Proof.
  intros Hidle. unfold backtest.
  rewrite (loop_idle price 0 init_state eq_refl Hidle). reflexivity.
Qed.

(** X5.  With a signal that is zero on every bar the run never opens a
    position and never reads the volatility series: if the signal series
    covers the bars the result is a curve constant at [initial_capital]
    and an empty ledger, whatever the volatility frame holds; if it is
    shorter the run raises [IndexError]. *)
Theorem zero_signal_run_is_flat :
  Forall (fun s => s = 0%Z) signal ->
  (length price <= length signal ->
   backtest = Py.Ok (repeat initial_capital (length price), []))
  /\ (length signal < length price -> backtest = Py.Raise Py.IndexError).
Proof.
  intros Hz.
  assert (Hidle : forall k, k < length signal -> idle k).
  { intros k Hk. left.
    destruct (nth_error signal k) as [s |] eqn:Hs;
      [ | apply nth_error_None in Hs; lia ].
    rewrite Forall_forall in Hz. rewrite (Hz s (nth_error_In _ _ Hs)).
    reflexivity. }
  split.
  - intros Hlen. apply backtest_idle. intros k Hk. apply Hidle. lia.
  - intros Hlen. unfold backtest.
    assert (Hr : loop 0 price init_state = Py.Raise Py.IndexError);
      [ | rewrite Hr; reflexivity ].
    apply loop_raises.
    destruct (nth_error price (length signal)) as [p |] eqn:Hp;
      [ | apply nth_error_None in Hp; lia ].
    exists (length signal), p. eexists. split; [ exact Hp | ].
    split.
    + apply loop_idle; [ reflexivity | ].
      rewrite length_firstn. intros k Hk. apply Hidle. lia.
    + simpl. unfold loop_body. apply entry_logic_raise.
      rewrite exit_logic_flat, mark_to_market_eq by reflexivity.
      split; [ reflexivity | ]. left. apply nth_error_None. lia.
Qed.

(** X6.  Without a usable volatility no position is ever opened: when
    the frame has no ["atr"] column (the engine then works with zeros), or
    every entry of the column is NaN or not above zero, a run whose signal
    and volatility series cover the bars returns a curve constant at
    [initial_capital] and an empty ledger, whatever the signal. *)
Theorem no_volatility_no_trades :
  length price <= length signal ->
  ind_atr = None
  \/ (exists col, ind_atr = Some col /\ length price <= length col
        /\ Forall (fun a => Py.isnan a = true \/ (a <=? 0)%float = true) col) ->
  backtest = Py.Ok (repeat initial_capital (length price), []).
Proof.
  intros Hlen Hvol. apply backtest_idle. intros k Hk. right.
  destruct (nth_error signal k) as [s |] eqn:Hs;
    [ | apply nth_error_None in Hs; lia ].
  exists s. unfold atr.
  destruct Hvol as [-> | (col & -> & Hcol & Hall)].
  - exists 0%float. rewrite nth_error_repeat by exact Hk.
    repeat split; reflexivity.
  - destruct (nth_error col k) as [ai |] eqn:Ha;
      [ | apply nth_error_None in Ha; lia ].
    exists ai. repeat split; try reflexivity.
    rewrite Forall_forall in Hall.
    unfold entry_vol.
    destruct (Hall ai (nth_error_In _ _ Ha)) as [-> | Hle]; [ reflexivity | ].
    destruct (Py.isnan ai); [ reflexivity | exact Hle ].
Qed.

(** ** Runs that hold a position *)

Lemma loop_body_held (i : nat) (p : float) (st : State) (pos : Position) :
  position st = Some pos -> exits pos p = false ->
  loop_body i p st =
  Py.Ok (mkState (balance st)
                 (equity_curve st ++ [held_mark (balance st) pos p])
                 (Some pos) (trades st)).
Proof.
  intros Hpos Hex. unfold loop_body.
  assert (Hm : mark_to_market p st =
               mkState (balance st)
                 (equity_curve st ++ [held_mark (balance st) pos p])
                 (Some pos) (trades st)).
  { rewrite mark_to_market_eq. unfold marked_equity. rewrite Hpos.
    reflexivity. }
  rewrite Hm. rewrite exit_logic_hold with (pos := pos);
    [ reflexivity | reflexivity | exact Hex ].
Qed.

Lemma loop_held (ps : list float) (i : nat) (st : State) (pos : Position) :
  position st = Some pos ->
  Forall (fun p => exits pos p = false) ps ->
  loop i ps st =
  Py.Ok (mkState (balance st)
                 (equity_curve st ++ map (held_mark (balance st) pos) ps)
                 (Some pos) (trades st)).
Proof.
  revert i st. induction ps as [| p ps IH]; intros i st Hpos Hall; simpl.
  - rewrite app_nil_r. destruct st; simpl in *. subst. reflexivity.
  - inversion Hall as [| ? ? Hp Hps]; subst.
    rewrite (loop_body_held i p st pos Hpos Hp). simpl.
    rewrite IH; [ | reflexivity | exact Hps ]. simpl.
    rewrite <- app_assoc. reflexivity.
Qed.

(** X7.  While a position is held the loop reads neither the signal nor
    the volatility series.  Over bars on none of which the stop or the
    take-profit test holds, the loop returns, however short those series
    are, with the position, balance and ledger as they were and one mark
    [balance + (close - entry_price) * qty * side] appended per bar. *)
Theorem held_position_reads_no_signal
    (ps : list float) (i : nat) (st : State) (pos : Position) :
  position st = Some pos ->
  Forall (fun p => stop_hit (pos_side pos) p (pos_stop pos) = false
                   /\ tp_hit (pos_side pos) p (pos_tp pos) = false) ps ->
  loop i ps st =
  Py.Ok (mkState (balance st)
           (equity_curve st ++
            map (fun p => (balance st
                           + (p - pos_entry_price pos) * pos_qty pos
                             * Py.of_int (pos_side pos))%float) ps)
           (Some pos) (trades st)).
Proof.
  intros Hpos Hall. apply (loop_held ps i st pos Hpos).
  eapply Forall_impl; [ | exact Hall ].
  intros p [H1 H2]. unfold exits. rewrite H1, H2. reflexivity.
Qed.

Lemma exits_other_side (pos : Position) (p : float) :
  pos_side pos <> 1%Z -> pos_side pos <> (-1)%Z -> exits pos p = false.
Proof.
  intros H1 H2. unfold exits, stop_hit, tp_hit.
  apply Z.eqb_neq in H1. apply Z.eqb_neq in H2. rewrite H1, H2. reflexivity.
Qed.

(** X8.  A signal other than [0], [+1], [-1] opens a position that
    nothing closes: both exit tests ask for side [+1] or [-1].  From flat
    locals, on a bar whose signal [s] is such a value of the int64 range
    (what a pandas integer series holds, and well inside the range where
    [int * float] does not raise) and whose volatility and sized quantity
    pass the guards, the bar opens a position of side [s], and over any
    further bars the loop returns with that position still open and the
    ledger unchanged. *)
Theorem other_signal_never_closed
    (i : nat) (p : float) (st : State) (s : Z) (ai : float) :
  position st = None ->
  nth_error signal i = Some s ->
  (- 2 ^ 63 <= s < 2 ^ 63)%Z ->
  s <> 0%Z -> s <> 1%Z -> s <> (-1)%Z ->
  nth_error atr i = Some ai ->
  (entry_vol ai <=? 0)%float = false ->
  (entry_qty st ai p <=? 0)%float = false ->
  exists st' pos,
    loop_body i p st = Py.Ok st'
    /\ position st' = Some pos /\ pos_side pos = s
    /\ trades st' = trades st
    /\ forall ps, exists st'',
         loop (S i) ps st' = Py.Ok st''
         /\ position st'' = Some pos /\ trades st'' = trades st
         /\ balance st'' = balance st.
Proof.
  intros Hflat Hs _ Hnz H1 H2 Ha Hv Hq.
  pose proof (exit_after_mark_flat i p st Hflat) as Hm.
  do 2 eexists. split.
  { unfold loop_body. rewrite Hm.
    apply entry_logic_open; [ reflexivity | exact Hs | exact Hnz | exact Ha | exact Hv | ].
    exact Hq. }
  simpl. repeat split.
  intros ps. eexists. split.
  { apply loop_held; [ reflexivity | ].
    apply Forall_forall. intros q _. apply exits_other_side; simpl; assumption. }
  simpl. repeat split.
Qed.

(** ** A NaN close *)

Local Open Scope float_scope.

Lemma sub_nan_r (x : float) : x - nan = nan.
Proof.
  apply Prim2SF_inj. rewrite sub_spec. change (Prim2SF nan) with S754_nan.
  unfold SF64sub, SFsub. destruct (Prim2SF x); reflexivity.
Qed.

Lemma add_nan_r (x : float) : x + nan = nan.
Proof.
  apply Prim2SF_inj. rewrite add_spec. change (Prim2SF nan) with S754_nan.
  unfold SF64add, SFadd. destruct (Prim2SF x); reflexivity.
Qed.

Lemma exits_nan_close (pos : Position) : exits pos nan = false.
Proof.
  unfold exits, stop_hit, tp_hit. rewrite !leb_nan_l, !leb_nan_r.
  rewrite !andb_false_r. reflexivity.
Qed.

Lemma exits_nan_levels (pos : Position) (p : float) :
  pos_stop pos = nan -> pos_tp pos = nan -> exits pos p = false.
Proof.
  intros Hs Ht. unfold exits, stop_hit, tp_hit.
  rewrite Hs, Ht, !leb_nan_l, !leb_nan_r, !andb_false_r. reflexivity.
Qed.

Lemma held_mark_nan_entry (b : float) (pos : Position) (p : float) :
  pos_entry_price pos = nan -> held_mark b pos p = nan.
Proof.
  intros He. unfold held_mark.
  rewrite He, sub_nan_r, !mul_nan_l, add_nan_r. reflexivity.
Qed.

Lemma opened_on_nan (s : Z) (a q : float) (i : nat) :
  pos_entry_price (opened s a q nan i) = nan
  /\ pos_stop (opened s a q nan i) = nan
  /\ pos_tp (opened s a q nan i) = nan.
Proof.
  unfold opened. simpl. rewrite !mul_nan_l.
  destruct (s =? 1)%Z; rewrite sub_nan_l, add_nan_l; repeat split.
Qed.

(** X9.  A NaN close never closes a position, since every comparison
    with NaN is false.  A NaN close on a bar that opens a position does
    lasting harm: entry price, stop and take-profit of that position are
    NaN, so no later bar can close it; over any further bars the loop
    returns with that position open and the ledger unchanged, and every
    equity value it appends is NaN. *)
Theorem nan_close_never_exits :
  (forall i st, exit_logic i nan st = st)
  /\ (forall i st st' pos,
        position st = None ->
        loop_body i nan st = Py.Ok st' ->
        position st' = Some pos ->
        pos_entry_price pos = nan /\ pos_stop pos = nan /\ pos_tp pos = nan
        /\ forall j ps,
             loop j ps st' =
             Py.Ok (mkState (balance st')
                            (equity_curve st' ++ repeat nan (length ps))
                            (Some pos) (trades st'))).
Proof.
  split.
  - intros i st. destruct (position st) as [pos |] eqn:Hpos.
    + apply (exit_logic_hold i nan st pos Hpos (exits_nan_close pos)).
    + apply exit_logic_flat. exact Hpos.
  - intros i st st' pos Hflat Hb Hopen.
    unfold loop_body in Hb. rewrite (exit_after_mark_flat i nan st Hflat) in Hb.
    destruct (entry_logic_inv i nan _ st' Hb)
      as [-> | (_ & s & ai & _ & _ & _ & _ & _ & Hst')]; [ discriminate | ].
    rewrite Hst' in Hopen |- *. simpl in Hopen |- *.
    match type of Hopen with
    | Some (opened _ _ ?q _ _) = _ => set (qty0 := q) in *
    end.
    injection Hopen as <-.
    destruct (opened_on_nan s (entry_vol ai) qty0 i) as (He & Hs & Ht).
    split; [ exact He | split; [ exact Hs | split; [ exact Ht | ] ] ].
    intros j ps.
    rewrite loop_held with (pos := opened s (entry_vol ai) qty0 nan i);
      [ | reflexivity
        | apply Forall_forall; intros q _; apply exits_nan_levels; assumption ].
    simpl. do 3 f_equal.
    induction ps as [| q ps IH]; simpl; [ reflexivity | ].
    rewrite IH, held_mark_nan_entry by exact He. reflexivity.
Qed.

(** ** The fee rate in a booked trade *)

(** Every booked [pnl] is [pnl_at fee_pct] of the trade's own fields. *)
Lemma reached_pnl_at (i : nat) (st : State) :
  reached i st ->
  Forall (fun t => pnl t = pnl_at fee_pct t) (trades st)
  /\ forall pos, position st = Some pos ->
       pos_entry_price_net pos =
       pos_entry_price pos
       + ((abs (pos_qty pos) * pos_entry_price pos) * fee_pct
          / Py.max 1e-9 (abs (pos_qty pos)))
         * Py.of_int (if (pos_side pos =? 1)%Z then 1 else -1).
Proof.
  revert i st. apply reached_ind.
  - split; [ constructor | discriminate ].
  - intros i p st st' _ _ [Htr Hps] Hb.
    destruct (loop_body_cases i p st st' Hb) as [Hex Hent].
    set (stm := mark_to_market p st) in *.
    set (ste := exit_logic i p stm) in *.
    assert (Hm : trades stm = trades st /\ position stm = position st)
      by (subst stm; rewrite mark_to_market_eq; split; reflexivity).
    destruct Hm as [Hmt Hmp].
    assert (He : Forall (fun t => pnl t = pnl_at fee_pct t) (trades ste)
                 /\ forall pos, position ste = Some pos ->
                      pos_entry_price_net pos =
                      pos_entry_price pos
                      + ((abs (pos_qty pos) * pos_entry_price pos) * fee_pct
                         / Py.max 1e-9 (abs (pos_qty pos)))
                        * Py.of_int (if (pos_side pos =? 1)%Z then 1 else -1)).
    { destruct Hex as [-> | (pos & Hpos & Hx & ->)].
      - rewrite Hmt, Hmp. split; assumption.
      - simpl. split; [ | discriminate ].
        apply Forall_app. split; [ exact Htr | ].
        constructor; [ | constructor ].
        unfold pnl_at, closed_trade, realized_pnl, exit_fee, exit_fill. simpl.
        rewrite (Hps pos Hpos). reflexivity. }
    destruct He as [Hte Hpe].
    destruct Hent as [-> | (Hn & s & ai & _ & _ & _ & _ & _ & ->)].
    + split; assumption.
    + simpl. split; [ exact Hte | ].
      intros pos [= <-]. reflexivity.
Qed.

Lemma backtest_pnl_at (eq : list float) (trs : list TradeResult) :
  backtest = Py.Ok (eq, trs) ->
  forall t, In t trs -> pnl t = pnl_at fee_pct t.
Proof.
  intros H t Hin.
  destruct (backtest_reached eq trs H) as (st & Hr & _ & ->).
  destruct (reached_pnl_at _ st Hr) as [Hall _].
  rewrite Forall_forall in Hall. exact (Hall t Hin).
Qed.

End Engine.

(** ** No look-ahead *)

Section Prefix.

Variable signal : list Z.
Variable ind_atr : option (list float).
Variables initial_capital risk_per_trade atr_stop_mult tp_mult : float.
Variables fee_pct slippage_pct : float.

Local Abbreviation entry_on price :=
  (entry_logic price signal ind_atr risk_per_trade atr_stop_mult tp_mult
               fee_pct slippage_pct).
Local Abbreviation loop_on price :=
  (loop price signal ind_atr initial_capital risk_per_trade atr_stop_mult
        tp_mult fee_pct slippage_pct).
Local Abbreviation backtest_on price :=
  (backtest price signal ind_atr initial_capital risk_per_trade atr_stop_mult
            tp_mult fee_pct slippage_pct).

(** The price series enters the entry logic only through the length of
    the zero column that stands in for a missing ["atr"] column. *)
Lemma entry_logic_other_prices
    (price1 price2 : list float) (i : nat) (p : float) (st : State) :
  (i < length price1)%nat -> (i < length price2)%nat ->
  entry_on price1 i p st = entry_on price2 i p st.
Proof.
  intros H1 H2. unfold entry_logic, atr.
  destruct ind_atr as [col |]; [ reflexivity | ].
  unfold Py.index. rewrite !nth_error_repeat by assumption. reflexivity.
Qed.

Lemma loop_other_prices
    (price1 price2 ps : list float) (i : nat) (st : State) :
  (i + length ps <= length price1)%nat ->
  (i + length ps <= length price2)%nat ->
  loop_on price1 i ps st = loop_on price2 i ps st.
Proof.
  revert i st. induction ps as [| p ps IH]; intros i st H1 H2; simpl in *;
    [ reflexivity | ].
  unfold loop_body.
  rewrite (entry_logic_other_prices price1 price2 i p) by lia.
  destruct (entry_on price2 i p _) as [st1 | e]; simpl; [ | reflexivity ].
  apply IH; lia.
Qed.

(** X10.  No look-ahead: the bars after bar [k] have no influence on
    what the run produces for the bars before it.  If the run over the
    whole series returns, the run over its first [k] bars returns the
    first [k] values of the same equity curve and a ledger that the
    ledger of the whole run extends. *)
Theorem no_look_ahead
    (price : list float) (k : nat)
    (eq : list float) (trs : list TradeResult) :
  (k <= length price)%nat ->
  backtest_on price = Py.Ok (eq, trs) ->
  exists trs_k later,
    backtest_on (firstn k price) = Py.Ok (firstn k eq, trs_k)
    /\ trs = trs_k ++ later.
Proof.
  intros Hk H.
  destruct (backtest_inv _ _ _ _ _ _ _ _ _ _ _ H) as (st & Hl & -> & ->).
  rewrite <- (firstn_skipn k price) in Hl at 2. rewrite loop_app in Hl.
  destruct (loop_on price 0 (firstn k price) (init_state initial_capital))
    as [stk | e] eqn:Hpre; simpl in Hl; [ | discriminate ].
  assert (Hlen : length (firstn k price) = k)
    by (rewrite length_firstn; lia).
  destruct (loop_equity _ _ _ _ _ _ _ _ _ _ _ _ _ Hpre) as (tl1 & He1 & Hl1).
  destruct (loop_equity _ _ _ _ _ _ _ _ _ _ _ _ _ Hl) as (tl2 & He2 & _).
  destruct (loop_trades _ _ _ _ _ _ _ _ _ _ _ _ _ Hl) as (later & Ht).
  exists (trades stk), later. split; [ | exact Ht ].
  unfold backtest.
  rewrite (loop_other_prices (firstn k price) price (firstn k price) 0)
    by (simpl; rewrite ?Hlen; lia).
  rewrite Hpre. simpl. do 2 f_equal.
  rewrite He2. simpl in He1.
  assert (Hk1 : length (equity_curve stk) = k)
    by (rewrite He1, Hl1; exact Hlen).
  rewrite <- Hk1 at 1. rewrite firstn_app, firstn_all, Nat.sub_diag. simpl.
  rewrite app_nil_r. reflexivity.
Qed.

End Prefix.

(** ** The fee rate and the first trade *)

(** Closes a [fee_sim] goal from its five parts found among the
    hypotheses. *)
Ltac fee_sim_split :=
  unfold fee_sim;
  repeat match goal with
         | H : position _ = _ |- _ => rewrite H
         end;
  refine (conj _ (conj _ (conj _ (conj _ _)))); try assumption.

Section FeeRate.

Variable price : list float.
Variable signal : list Z.
Variable ind_atr : option (list float).
Variables initial_capital risk_per_trade atr_stop_mult tp_mult : float.
Variable slippage_pct : float.
Variables f1 f2 : float.

Local Abbreviation entry f :=
  (entry_logic price signal ind_atr risk_per_trade atr_stop_mult tp_mult f
               slippage_pct).
Local Abbreviation exit f := (exit_logic initial_capital f slippage_pct).
Local Abbreviation body f :=
  (loop_body price signal ind_atr initial_capital risk_per_trade atr_stop_mult
             tp_mult f slippage_pct).
Local Abbreviation run f :=
  (loop price signal ind_atr initial_capital risk_per_trade atr_stop_mult
        tp_mult f slippage_pct).
Local Abbreviation bt f :=
  (backtest price signal ind_atr initial_capital risk_per_trade atr_stop_mult
            tp_mult f slippage_pct).

Lemma exits_same_levels (p1 p2 : Position) (p : float) :
  same_levels p1 p2 -> exits p1 p = exits p2 p.
Proof.
  intros (Hs & _ & _ & Hst & Htp & _). unfold exits.
  rewrite Hs, Hst, Htp. reflexivity.
Qed.

Lemma closed_trade_same_fill (p1 p2 : Position) (i : nat) (p : float) :
  same_levels p1 p2 ->
  same_fill (closed_trade initial_capital f1 slippage_pct p1 i p)
            (closed_trade initial_capital f2 slippage_pct p2 i p).
Proof.
  intros (Hs & Hq & He & _ & _ & Hi). unfold same_fill, closed_trade, exit_fill.
  simpl. rewrite Hs. repeat split; assumption.
Qed.

(** Whether the entry logic raises depends neither on the fee rate nor on
    the balance. *)
Lemma entry_raise_agree (i : nat) (p : float) (a b : State) :
  position a = None -> position b = None ->
  match entry f1 i p a, entry f2 i p b with
  | Py.Ok a', Py.Ok b' =>
      trades a' = trades a /\ trades b' = trades b
  | Py.Raise _, Py.Raise _ => True
  | _, _ => False
  end.
Proof.
  intros Ha Hb.
  destruct (entry f1 i p a) as [a' | e1] eqn:E1;
    destruct (entry f2 i p b) as [b' | e2] eqn:E2.
  - split; eapply entry_logic_trades; eassumption.
  - apply entry_logic_raise in E2. destruct E2 as [_ E2].
    assert (R : entry f1 i p a = Py.Raise e2)
      by (apply entry_logic_raise; split; assumption).
    congruence.
  - apply entry_logic_raise in E1. destruct E1 as [_ E1].
    assert (R : entry f2 i p b = Py.Raise e1)
      by (apply entry_logic_raise; split; assumption).
    congruence.
  - exact I.
Qed.

(** From flat locals with the same balance the two entry logics take the
    same branch, and open positions with the same levels. *)
Lemma entry_fee_sim (i : nat) (p : float) (a b : State) :
  fee_sim a b ->
  match entry f1 i p a, entry f2 i p b with
  | Py.Ok a', Py.Ok b' => fee_sim a' b'
  | Py.Raise _, Py.Raise _ => True
  | _, _ => False
  end.
Proof.
  intros (Hbal & Heq & Ht1 & Ht2 & Hpos).
  unfold entry_logic, Py.bind, Py.index.
  destruct (position a) as [pa |] eqn:Hpa;
    destruct (position b) as [pb |] eqn:Hpb; try contradiction.
  - fee_sim_split.
  - destruct (nth_error signal i) as [s |]; [ | exact I ].
    destruct (s =? 0)%Z.
    { fee_sim_split. }
    destruct (nth_error (atr price ind_atr) i) as [ai |]; [ | exact I ].
    destruct ((if Py.isnan ai then 0 else ai) <=? 0).
    { fee_sim_split. }
    rewrite <- Hbal.
    destruct (atr_position_size (balance a) risk_per_trade _ p atr_stop_mult
              <=? 0).
    { fee_sim_split. }
    unfold fee_sim, same_levels. simpl. repeat split; try assumption; reflexivity.
Qed.

Lemma mark_fee_sim (p : float) (a b : State) :
  fee_sim a b -> fee_sim (mark_to_market p a) (mark_to_market p b).
Proof.
  intros (Hbal & Heq & Ht1 & Ht2 & Hpos).
  rewrite !mark_to_market_eq. unfold fee_sim, marked_equity. simpl.
  destruct (position a) as [pa |]; destruct (position b) as [pb |];
    try contradiction.
  - destruct Hpos as (Hs & Hq & He & Hrest).
    rewrite Hbal, Heq, Hs, Hq, He.
    repeat split; try assumption; tauto.
  - rewrite Hbal, Heq. repeat split; assumption.
Qed.

Lemma body_fee_sim (i : nat) (p : float) (a b : State) :
  fee_sim a b -> fee_outcome (body f1 i p a) (body f2 i p b).
Proof.
  intros Hsim. unfold loop_body.
  apply (mark_fee_sim p) in Hsim.
  set (am := mark_to_market p a) in *. set (bm := mark_to_market p b) in *.
  clearbody am bm.
  assert (Hsim' := Hsim). destruct Hsim' as (Hbal & Heq & Ht1 & Ht2 & Hpos).
  destruct (position am) as [pa |] eqn:Hpa;
    destruct (position bm) as [pb |] eqn:Hpb; try contradiction.
  - assert (Hex := exits_same_levels pa pb p Hpos).
    destruct (exits pa p) eqn:Ea.
    + rewrite (exit_logic_hit _ _ _ i p am pa Hpa Ea).
      rewrite (exit_logic_hit _ _ _ i p bm pb Hpb (eq_sym Hex)).
      match goal with
      | |- fee_outcome (entry f1 i p ?x) (entry f2 i p ?y) =>
          assert (Hag := entry_raise_agree i p x y eq_refl eq_refl);
          destruct (entry f1 i p x) as [a' | e1];
          destruct (entry f2 i p y) as [b' | e2]; try contradiction;
          simpl in *
      end; [ | exact I ].
      destruct Hag as [Ha' Hb']. right.
      rewrite Ht1 in Ha'. rewrite Ht2 in Hb'. simpl in Ha', Hb'.
      do 4 eexists. split; [ exact Ha' | split; [ exact Hb' | ] ].
      apply closed_trade_same_fill; assumption.
    + rewrite (exit_logic_hold _ _ _ i p am pa Hpa Ea).
      rewrite (exit_logic_hold _ _ _ i p bm pb Hpb) by congruence.
      assert (H := entry_fee_sim i p am bm Hsim).
      destruct (entry f1 i p am); destruct (entry f2 i p bm);
        try contradiction; simpl; [ left; exact H | exact I ].
  - rewrite (exit_logic_flat _ _ _ i p am Hpa).
    rewrite (exit_logic_flat _ _ _ i p bm Hpb).
    assert (H := entry_fee_sim i p am bm Hsim).
    destruct (entry f1 i p am); destruct (entry f2 i p bm);
      try contradiction; simpl; [ left; exact H | exact I ].
Qed.

Lemma fee_outcome_after (a b : State) (r1 r2 : Py.result State)
    (t1 t2 : TradeResult) (l1 l2 : list TradeResult) :
  trades a = t1 :: l1 -> trades b = t2 :: l2 -> same_fill t1 t2 ->
  (forall a', r1 = Py.Ok a' -> exists l, trades a' = trades a ++ l) ->
  (forall b', r2 = Py.Ok b' -> exists l, trades b' = trades b ++ l) ->
  fee_outcome r1 r2.
Proof.
  intros Ha Hb Hsf H1 H2. unfold fee_outcome.
  destruct r1 as [a' | e1]; destruct r2 as [b' | e2].
  - destruct (H1 a' eq_refl) as (la & Hla).
    destruct (H2 b' eq_refl) as (lb & Hlb).
    right. rewrite Hla, Ha. rewrite Hlb, Hb. simpl.
    do 4 eexists. split; [ reflexivity | split; [ reflexivity | exact Hsf ] ].
  - destruct (H1 a' eq_refl) as (la & Hla). rewrite Hla, Ha. discriminate.
  - destruct (H2 b' eq_refl) as (lb & Hlb). rewrite Hlb, Hb. discriminate.
  - exact I.
Qed.

Lemma loop_fee_sim (i : nat) (ps : list float) (a b : State) :
  fee_sim a b -> fee_outcome (run f1 i ps a) (run f2 i ps b).
Proof.
  revert i a b. induction ps as [| p ps IH]; intros i a b Hsim.
  - simpl. left. exact Hsim.
  - assert (Hb := body_fee_sim i p a b Hsim). simpl.
    destruct (body f1 i p a) as [a1 | e1] eqn:E1;
      destruct (body f2 i p b) as [b1 | e2] eqn:E2; simpl in *.
    + destruct Hb as [Hsim1 | (t1 & l1 & t2 & l2 & Ha1 & Hb1 & Hsf)].
      * apply IH. exact Hsim1.
      * apply (fee_outcome_after a1 b1 _ _ t1 t2 l1 l2 Ha1 Hb1 Hsf).
        -- intros a' H. exact (loop_trades _ _ _ _ _ _ _ _ _ _ _ _ _ H).
        -- intros b' H. exact (loop_trades _ _ _ _ _ _ _ _ _ _ _ _ _ H).
    + destruct (run f1 (S i) ps a1) as [a' | e1] eqn:R1; [ | exact I ].
      destruct (loop_trades _ _ _ _ _ _ _ _ _ _ _ _ _ R1) as (l & Hl).
      unfold fee_outcome. rewrite Hl.
      destruct (trades a1); [ contradiction Hb; reflexivity | discriminate ].
    + destruct (run f2 (S i) ps b1) as [b' | e2] eqn:R2; [ | exact I ].
      destruct (loop_trades _ _ _ _ _ _ _ _ _ _ _ _ _ R2) as (l & Hl).
      unfold fee_outcome. rewrite Hl.
      destruct (trades b1); [ contradiction Hb; reflexivity | discriminate ].
    + exact I.
Qed.

Lemma init_fee_sim : fee_sim (init_state initial_capital) (init_state initial_capital).
Proof. unfold fee_sim, init_state. simpl. repeat split. Qed.

(** C8 (as amended).  On identical series and configuration, two fee
    rates give runs that agree up to the first exit.  A run that books no
    trade under one fee rate returns the same equity curve and books no
    trade under the other, so its total realized P&L is unchanged.  When
    both runs return and one has booked a trade, the other has too; the
    two first trades have the same entry and exit bars, side, entry and
    exit prices and quantity, and their [pnl] are one expression of those
    fields evaluated at the two fee rates,
    [(exit_price - (entry_price + entry_fee / max(1e-9, |qty|) * sign))
     * qty * side - exit_fee]
    with [entry_fee = |qty| * entry_price * fee] and
    [exit_fee = |qty| * exit_price * fee]. *)
Theorem fee_rate_first_trade :
  let pnl_of f t :=
    (exit_price t
     - (entry_price t
        + ((abs (qty t) * entry_price t) * f / Py.max 1e-9 (abs (qty t)))
          * Py.of_int (if (side t =? 1)%Z then 1 else -1)))
    * qty t * Py.of_int (side t)
    - (abs (qty t) * exit_price t) * f in
  (forall eq trs1,
     bt f1 = Py.Ok (eq, trs1) -> trs1 = [] ->
     exists trs2,
       bt f2 = Py.Ok (eq, trs2) /\ trs2 = []
       /\ total_realized_pnl trs2 = total_realized_pnl trs1)
  /\ (forall eq1 t1 l1 eq2 trs2,
        bt f1 = Py.Ok (eq1, t1 :: l1) ->
        bt f2 = Py.Ok (eq2, trs2) ->
        exists t2 l2,
          trs2 = t2 :: l2
          /\ entry_idx t2 = entry_idx t1 /\ exit_idx t2 = exit_idx t1
          /\ side t2 = side t1 /\ entry_price t2 = entry_price t1
          /\ exit_price t2 = exit_price t1 /\ qty t2 = qty t1
          /\ pnl t1 = pnl_of f1 t1 /\ pnl t2 = pnl_of f2 t1).
Proof.
  intros pnl_of.
  assert (H := loop_fee_sim 0 price _ _ init_fee_sim).
  split.
  - intros eq trs1 H1 ->.
    destruct (backtest_inv _ _ _ _ _ _ _ _ _ _ _ H1) as (a & Ha & -> & Hta).
    rewrite Ha in H. unfold backtest.
    destruct (run f2 0 price (init_state initial_capital)) as [b | e];
      simpl in H.
    + destruct H as [(_ & Heq & _ & Htb & _) | (t1 & l1 & _ & _ & Hc & _)];
        [ | congruence ].
      exists []. simpl. rewrite Heq, Htb. repeat split.
    + congruence.
  - intros eq1 t1 l1 eq2 trs2 H1 H2.
    destruct (backtest_inv _ _ _ _ _ _ _ _ _ _ _ H1) as (a & Ha & _ & Hta).
    destruct (backtest_inv _ _ _ _ _ _ _ _ _ _ _ H2) as (b & Hb & _ & Htb).
    rewrite Ha, Hb in H. simpl in H.
    destruct H as [(_ & _ & Hc & _) | (u1 & k1 & u2 & k2 & Hu1 & Hu2 & Hsf)];
      [ congruence | ].
    rewrite Hu1 in Hta. injection Hta as -> ->.
    rewrite Hu2 in Htb. subst trs2.
    pose proof (backtest_pnl_at _ _ _ _ _ _ _ _ _ _ _ H1 u1 (or_introl eq_refl))
      as P1.
    pose proof (backtest_pnl_at _ _ _ _ _ _ _ _ _ _ _ H2 u2 (or_introl eq_refl))
      as P2.
    exists u2, k2. destruct Hsf as (E1 & E2 & E3 & E4 & E5 & E6).
    split; [ reflexivity | ].
    repeat (split; [ congruence | ]).
    split; [ exact P1 | ].
    rewrite P2. unfold pnl_at, pnl_of. rewrite <- E3, <- E4, <- E5, <- E6.
    reflexivity.
Qed.

End FeeRate.

(** ** Worked runs *)

(** Refutes an equation between two binary64 values by evaluating [=?]
    on them. *)
Ltac float_neq :=
  let E := fresh "E" in
  intro E;
  match type of E with
  | ?a = ?b => apply (f_equal (fun x => (x =? b)%float)) in E
  end;
  vm_compute in E; discriminate.

(** The three-bar run at fee rate [fee_pct]. *)
Abbreviation gap_run fee_pct :=
  (backtest gap_price gap_signal gap_atr 10000 0.5 1 1 fee_pct 0).

Lemma gap_run_free : gap_run 0 = Py.Ok (gap_equity, gap_trades).
Proof. vm_compute. reflexivity. Qed.

(** A long position whose stop and take-profit both stand at 99, at a
    close of 99. *)
Lemma exit_iff_stop_or_take_profit_witness :
  let pos := mkPosition 1 5000 100 100 99 99 0 in
  let st := mkState 10000 [10000; 5000] (Some pos) [] in
  position st = Some pos
  /\ exit_logic 10000 0 0 1 99 st =
     mkState 5000 [10000; 5000] None
             [mkTradeResult 0 1 1 100 99 5000 (-5000) (-0.5)]
  /\ exit_reason 1 99 99 99 = Some "stop"%string.
Proof.
  intros pos st.
  pose proof (exit_iff_stop_or_take_profit 10000 0 0 1 99 st pos eq_refl)
    as (_ & Hexit & _ & Hstop & _).
  split; [ reflexivity | split ].
  - rewrite Hexit by (vm_compute; reflexivity). vm_compute. reflexivity.
  - apply Hstop. vm_compute. reflexivity.
Defined.

(** C3 fails on the code in its tie-break half: nothing records the
    reason of an exit.  At a close of 99 a long position with stop 99 and
    take-profit 99 exits with reason ["stop"], one with stop 98 and
    take-profit 99 with reason ["tp"], and the locals after the two exits,
    the booked trade included, are the same. *)
Lemma exit_reason_not_recorded :
  let tie := mkPosition 1 5000 100 100 99 99 0 in
  let tp_only := mkPosition 1 5000 100 100 98 99 0 in
  let st pos := mkState 10000 [10000; 5000] (Some pos) [] in
  exit_reason 1 99 99 99 = Some "stop"%string
  /\ exit_reason 1 99 98 99 = Some "tp"%string
  /\ exit_logic 10000 0 0 1 99 (st tie) = exit_logic 10000 0 0 1 99 (st tp_only)
  /\ trades (exit_logic 10000 0 0 1 99 (st tie)) =
     [mkTradeResult 0 1 1 100 99 5000 (-5000) (-0.5)].
Proof. repeat split; vm_compute; reflexivity. Qed.

(** The four fills at a slippage rate of 1/1024: a long and a short entry
    at a close of 100, a long exit at 101 and a short exit at 99. *)
Lemma slippage_against_trader_witness :
  let slip := 0.0009765625 in
  let short_pos := mkPosition (-1) 5000 100 100 101 99 0 in
  let short_st := mkState 10000 [10000] (Some short_pos) [] in
  (exists st' pos,
      entry_logic gap_price gap_signal gap_atr 0.5 1 1 0 slip 0 100
                  (init_state 10000) = Py.Ok st'
      /\ position st' = Some pos /\ pos_side pos = 1%Z
      /\ pos_entry_price pos = 100.09765625)
  /\ (exists st' pos,
      entry_logic [100] [(-1)%Z] (Some [1]) 0.5 1 1 0 slip 0 100
                  (init_state 10000) = Py.Ok st'
      /\ position st' = Some pos /\ pos_side pos = (-1)%Z
      /\ pos_entry_price pos = 99.90234375)
  /\ (exists t,
      trades (exit_logic 10000 0 slip 1 101 gap_bar1) = [t]
      /\ side t = 1%Z /\ exit_price t = 100.9013671875)
  /\ (exists t,
      trades (exit_logic 10000 0 slip 1 99 short_st) = [t]
      /\ side t = (-1)%Z /\ exit_price t = 99.0966796875).
Proof.
  intros slip short_pos short_st.
  split; [ | split; [ | split ] ].
  - destruct (proj1 (slippage_against_trader gap_price gap_signal gap_atr
                       10000 0.5 1 1 0 slip 0 100 (init_state 10000))
                1%Z 1 eq_refl eq_refl (or_introl eq_refl) eq_refl
                ltac:(vm_compute; reflexivity) ltac:(vm_compute; reflexivity))
      as (st' & pos & He & Hp & Hs & Hlong & _).
    exists st', pos. repeat split; try assumption.
    rewrite (Hlong eq_refl). vm_compute. reflexivity.
  - destruct (proj1 (slippage_against_trader [100] [(-1)%Z] (Some [1])
                       10000 0.5 1 1 0 slip 0 100 (init_state 10000))
                (-1)%Z 1 eq_refl eq_refl (or_intror eq_refl) eq_refl
                ltac:(vm_compute; reflexivity) ltac:(vm_compute; reflexivity))
      as (st' & pos & He & Hp & Hs & _ & Hshort).
    exists st', pos. repeat split; try assumption.
    rewrite (Hshort eq_refl). vm_compute. reflexivity.
  - destruct (proj1 (proj2 (slippage_against_trader gap_price gap_signal gap_atr
                              10000 0.5 1 1 0 slip 1 101 gap_bar1))
                gap_pos eq_refl eq_refl ltac:(vm_compute; reflexivity))
      as (t & Hex & Hs & _ & Hp).
    exists t. rewrite Hex. simpl. repeat split; assumption.
  - destruct (proj2 (proj2 (slippage_against_trader gap_price gap_signal gap_atr
                              10000 0.5 1 1 0 slip 1 99 short_st))
                short_pos eq_refl eq_refl ltac:(vm_compute; reflexivity))
      as (t & Hex & Hs & _ & Hp).
    exists t. rewrite Hex. simpl. repeat split; assumption.
Defined.

Lemma realized_pnl_formula_witness :
  let fee := 0.0009765625 in
  let pos := mkPosition 1 5000 100 100.09765625 99 101 0 in
  let st1 := mkState 10000 [] (Some pos) [] in
  let st := mkState 10000 [10000; 15000] (Some pos) [] in
  entry_logic gap_price gap_signal gap_atr 0.5 1 1 fee 0 0 100
              (init_state 10000) = Py.Ok st1
  /\ position (exit_logic 10000 fee 0 1 101 st) = None
  /\ balance (exit_logic 10000 fee 0 1 101 st) = 10000 + 4018.5546875.
Proof.
  intros fee pos st1 st.
  assert (Hent : entry_logic gap_price gap_signal gap_atr 0.5 1 1 fee 0 0 100
                             (init_state 10000) = Py.Ok st1)
    by (vm_compute; reflexivity).
  assert (Hnone : position (exit_logic 10000 fee 0 1 101 st) = None)
    by (vm_compute; reflexivity).
  split; [ exact Hent | split; [ exact Hnone | ] ].
  pose proof (realized_pnl_formula gap_price gap_signal gap_atr 10000 0.5 1 1
                fee 0 0 1 100 101 (init_state 10000) st1 st pos
                eq_refl Hent eq_refl eq_refl Hnone) as (_ & _ & Hbal & _).
  rewrite Hbal. vm_compute. reflexivity.
Defined.

Lemma same_bar_reopen_witness :
  exists st' t pos',
    loop_body gap_price gap_signal gap_atr 10000 0.5 1 1 0 0 1 101 gap_bar1
    = Py.Ok st'
    /\ trades st' = [t] /\ exit_idx t = 1%nat
    /\ position st' = Some pos' /\ pos_entry_idx pos' = 1%nat.
Proof.
  destruct (same_bar_reopen gap_price gap_signal gap_atr 10000 0.5 1 1 0 0
              1 101 gap_bar1 gap_pos 1%Z 1
              eq_refl ltac:(vm_compute; reflexivity) eq_refl
              ltac:(discriminate) eq_refl
              ltac:(vm_compute; reflexivity) ltac:(vm_compute; reflexivity))
    as (st' & t & pos' & Hb & Ht & _ & Hx & Hp & Hi & _).
  exists st', t, pos'. repeat split; assumption.
Defined.

(** Three skipped entries on a signal of 1: a flat bar with NaN
    volatility; a flat bar where a risk fraction of zero sizes a quantity
    of zero; and bar 1 of the three-bar run with NaN volatility, where the
    take-profit exit is booked and no position is reopened. *)
Lemma entry_skipped_not_fatal_witness :
  loop_body [100] [1%Z] (Some [nan]) 10000 0.5 1 1 0 0 0 100 (init_state 10000)
  = Py.Ok (mkState 10000 [10000] None [])
  /\ loop_body [100] [1%Z] (Some [1]) 10000 0 1 1 0 0 0 100 (init_state 10000)
     = Py.Ok (mkState 10000 [10000] None [])
  /\ loop_body gap_price gap_signal (Some [1; nan; 1]) 10000 0.5 1 1 0 0 1 101
               gap_bar1
     = Py.Ok (mkState 15000 [10000; 15000] None
                      [mkTradeResult 0 1 1 100 101 5000 5000 0.5]).
Proof.
  split; [ | split ].
  - destruct (entry_skipped_not_fatal [100] [1%Z] (Some [nan])
                10000 0.5 1 1 0 0 0 100 (init_state 10000) 1%Z nan
                eq_refl ltac:(discriminate) eq_refl) as [Hflat _].
    apply Hflat; [ reflexivity | left; reflexivity ].
  - destruct (entry_skipped_not_fatal [100] [1%Z] (Some [1])
                10000 0 1 1 0 0 0 100 (init_state 10000) 1%Z 1
                eq_refl ltac:(discriminate) eq_refl) as [Hflat _].
    apply Hflat; [ reflexivity | right; right; vm_compute; reflexivity ].
  - destruct (entry_skipped_not_fatal gap_price gap_signal
                (Some [1; nan; 1]) 10000 0.5 1 1 0 0 1 101 gap_bar1 1%Z nan
                eq_refl ltac:(discriminate) eq_refl) as [_ Hexit].
    destruct (Hexit gap_pos eq_refl) as [H _];
      [ vm_compute; reflexivity | left; reflexivity | ].
    rewrite H. vm_compute. reflexivity.
Defined.

Lemma equity_one_value_per_bar_witness :
  gap_run 0 = Py.Ok (gap_equity, gap_trades)
  /\ length gap_equity = length gap_price.
Proof.
  split; [ exact gap_run_free | ].
  exact (proj1 (proj1 (proj2 (equity_one_value_per_bar gap_price gap_signal
                                gap_atr 10000 0.5 1 1 0 0))
                  gap_equity gap_trades gap_run_free)).
Defined.

Lemma first_equity_is_initial_capital_witness :
  gap_price <> [] /\ nth_error gap_equity 0 = Some 10000.
Proof.
  assert (Hne : gap_price <> []) by discriminate.
  split; [ exact Hne | ].
  exact (proj1 (first_equity_is_initial_capital gap_price gap_signal gap_atr
                  10000 0.5 1 1 0 0 Hne)
           gap_equity gap_trades gap_run_free).
Defined.

Lemma ledger_chronological_witness :
  gap_run 0 = Py.Ok (gap_equity, gap_trades)
  /\ (forall t, In t gap_trades -> (entry_idx t < exit_idx t)%nat)
  /\ (forall k t1 t2,
        nth_error gap_trades k = Some t1 ->
        nth_error gap_trades (S k) = Some t2 ->
        (exit_idx t1 <= entry_idx t2)%nat).
Proof.
  split; [ exact gap_run_free | ].
  exact (ledger_chronological gap_price gap_signal gap_atr 10000 0.5 1 1 0 0
           gap_equity gap_trades gap_run_free).
Defined.

(** A signal series of one element against three bars: bar 0 opens a
    position, bar 1 closes it at the take-profit and then reads
    [signal.iloc[1]]. *)
Lemma raises_only_inside_loop_witness :
  backtest [100; 101; 101] [1%Z] (Some [1; 1; 1]) 10000 0.5 1 1 0 0
  = Py.Raise Py.IndexError.
Proof.
  apply (proj1 (raises_only_inside_loop [100; 101; 101] [1%Z] (Some [1; 1; 1])
                  10000 0.5 1 1 0 0)).
  exists 1%nat, 101, gap_bar1.
  split; [ reflexivity | ].
  split; [ vm_compute; reflexivity | ].
  split; [ reflexivity | ].
  split; [ vm_compute; reflexivity | ].
  left. reflexivity.
Defined.

(** C4 fails on the code.  Negative fee and slippage rates, a negative
    risk fraction, a signal series longer and a volatility series shorter
    than the price series: each of these runs returns a result.  With a
    signal series that is too short the run does raise, but only on bar 1,
    after bar 0 has opened a position and bar 1 has appended its equity
    value, booked the exit and raised the balance to 15000. *)
Lemma precondition_counterexample :
  backtest [100; 101] [1; 0]%Z (Some [1; 1]) 10000 0.5 1 1
           (-0.0009765625) (-0.0009765625)
  = Py.Ok ([10000; 15488.28125],
           [mkTradeResult 0 1 1 99.90234375 101.0986328125 5000
                          6962.895393371582 0.6962895393371582])
  /\ backtest [100; 101] [1; 0]%Z (Some [1; 1]) 10000 (-0.5) 1 1 0 0
     = Py.Ok ([10000; 10000], [])
  /\ backtest [100; 101] [1; 0; 1; 1]%Z (Some [1]) 10000 0.5 1 1 0 0
     = Py.Ok ([10000; 15000], [mkTradeResult 0 1 1 100 101 5000 5000 0.5])
  /\ backtest [100; 101; 101] [1%Z] (Some [1; 1; 1]) 10000 0.5 1 1 0 0
     = Py.Raise Py.IndexError
  /\ loop [100; 101; 101] [1%Z] (Some [1; 1; 1]) 10000 0.5 1 1 0 0 0 [100]
          (init_state 10000)
     = Py.Ok gap_bar1
  /\ exit_logic 10000 0 0 1 101 (mark_to_market 101 gap_bar1)
     = mkState 15000 [10000; 15000] None
               [mkTradeResult 0 1 1 100 101 5000 5000 0.5].
Proof. repeat split; vm_compute; reflexivity. Qed.

(** C1 fails on the code where the quantity is at most [1e-9].  With a
    capital of [2^-30] the sized quantity is [2^-31]; the entry fee is
    divided by [1e-9], not by the quantity, so the cost basis is about
    128.058 where [entry_price + sign * (entry_fee / quantity)] is
    128.125, and the P&L booked at the exit differs from the one computed
    on that basis. *)
Lemma cost_basis_counterexample :
  let fee_pct := 0.0009765625 in
  exists st1 pos t,
    entry_logic [128; 130] [1; 0]%Z (Some [1; 1]) 0.5 1 1 fee_pct 0 0 128
                (init_state 0x1p-30) = Py.Ok st1
    /\ position st1 = Some pos
    /\ pos_side pos = 1%Z
    /\ pos_qty pos = 0x1p-31
    /\ balance st1 = 0x1p-30
    /\ trades (exit_logic 0x1p-30 fee_pct 0 1 130 st1) = [t]
    /\ let entry_fee := (abs (pos_qty pos) * pos_entry_price pos) * fee_pct in
       let claimed_net :=
         pos_entry_price pos + Py.of_int 1 * (entry_fee / pos_qty pos) in
       let exit_fee := (abs (qty t) * exit_price t) * fee_pct in
       claimed_net = 128.125
       /\ pos_entry_price_net pos <> claimed_net
       /\ pnl t <>
          (exit_price t - claimed_net) * qty t * Py.of_int (side t) - exit_fee.
Proof.
  intros fee_pct. do 3 eexists.
  split; [ vm_compute; reflexivity | ].
  split; [ reflexivity | ].
  split; [ reflexivity | ].
  split; [ vm_compute; reflexivity | ].
  split; [ reflexivity | ].
  split; [ vm_compute; reflexivity | ].
  cbv zeta. split; [ vm_compute; reflexivity | ].
  split; float_neq.
Qed.

(** C8 fails on the code.  On the three-bar run above, doubling the fee
    rate from 1/1024 to 1/512 raises the total realized P&L from about
    -74390.89 to about -71098.72: the first trade earns less, the second
    position is sized from the smaller balance, and the loss it takes on
    the gap shrinks by more than the extra fees. *)
Lemma fee_monotonicity_counterexample :
  exists eq1 trs1 eq2 trs2,
    (0.0009765625 <? 0.001953125) = true
    /\ gap_run 0.0009765625 = Py.Ok (eq1, trs1)
    /\ gap_run 0.001953125 = Py.Ok (eq2, trs2)
    /\ length trs1 = 2%nat /\ length trs2 = 2%nat
    /\ total_realized_pnl trs1 = -74390.890598297119
    /\ total_realized_pnl trs2 = -71098.718643188477
    /\ (total_realized_pnl trs1 <? total_realized_pnl trs2) = true.
Proof.
  do 4 eexists.
  split; [ vm_compute; reflexivity | ].
  split; [ vm_compute; reflexivity | ].
  split; [ vm_compute; reflexivity | ].
  repeat split; vm_compute; reflexivity.
Qed.

(** Rounding alone already defeats strictness on a single trade: on a
    two-bar run with one winning trade, the fee rate 0.001 and the next
    binary64 value above it book the same [pnl]. *)
Lemma fee_rounding_absorbed :
  let run f := backtest [100; 101] [1; 0]%Z (Some [1; 1]) 10000 0.5 1 1 f 0 in
  (0.001 <? next_up 0.001) = true
  /\ exists eq t, run 0.001 = Py.Ok (eq, [t])
                  /\ run (next_up 0.001) = Py.Ok (eq, [t])
                  /\ qty t = 5000 /\ pnl t = 3995.0000000000282.
Proof.
  intros run. split; [ vm_compute; reflexivity | ].
  do 2 eexists. split; [ vm_compute; reflexivity | ].
  repeat split; vm_compute; reflexivity.
Qed.

(** Nor does one trade alone keep the order when a close is negative:
    a long position entered at 10 and stopped out at -37 books a [pnl] of
    -234868.1640625 at a fee rate of 1/1024 and of -234736.328125 at
    1/512, the exit fee on a negative price being a credit. *)
Lemma fee_negative_close_raises_pnl :
  let run f := backtest [10; -37] [1; 0]%Z (Some [1; 1]) 10000 0.5 1 1 f 0 in
  run 0.0009765625
  = Py.Ok ([10000; -225000],
           [mkTradeResult 0 1 1 10 (-37) 5000 (-234868.1640625)
                          (-23.48681640625)])
  /\ run 0.001953125
     = Py.Ok ([10000; -225000],
              [mkTradeResult 0 1 1 10 (-37) 5000 (-234736.328125)
                             (-23.4736328125)])
  /\ (-234868.1640625 <? -234736.328125) = true.
Proof. repeat split; vm_compute; reflexivity. Qed.

(** A run that never exits, and the three-bar run, under the fee rates
    1/1024 and 1/512; the first trade of the latter books 3037.109375 at
    the rate 1/512. *)
Lemma fee_rate_first_trade_witness :
  let f1 := 0.0009765625 in
  let f2 := 0.001953125 in
  backtest [100; 100.5] [1; 0]%Z (Some [1; 1]) 10000 0.5 1 1 f1 0
  = Py.Ok ([10000; 12500], [])
  /\ backtest [100; 100.5] [1; 0]%Z (Some [1; 1]) 10000 0.5 1 1 f2 0
     = Py.Ok ([10000; 12500], [])
  /\ exists eq2 t2 l2,
       gap_run f2 = Py.Ok (eq2, t2 :: l2)
       /\ entry_idx t2 = 0%nat /\ exit_idx t2 = 1%nat /\ qty t2 = 5000
       /\ pnl t2 = 3037.109375.
Proof.
  intros f1 f2.
  assert (H1 : backtest [100; 100.5] [1; 0]%Z (Some [1; 1]) 10000 0.5 1 1 f1 0
               = Py.Ok ([10000; 12500], []))
    by (vm_compute; reflexivity).
  split; [ exact H1 | ].
  destruct (proj1 (fee_rate_first_trade [100; 100.5] [1; 0]%Z (Some [1; 1])
                     10000 0.5 1 1 0 f1 f2) _ _ H1 eq_refl)
    as (trs2 & H2 & -> & _).
  split; [ exact H2 | ].
  destruct (gap_run f1) as [[eq1 trs1] | e] eqn:G1;
    [ | vm_compute in G1; discriminate ].
  destruct trs1 as [| t1 l1]; [ vm_compute in G1; discriminate | ].
  destruct (gap_run f2) as [[eq2 trs2] | e] eqn:G2;
    [ | vm_compute in G2; discriminate ].
  destruct (proj2 (fee_rate_first_trade gap_price gap_signal gap_atr
                     10000 0.5 1 1 0 f1 f2) eq1 t1 l1 eq2 trs2 G1 G2)
    as (t2 & l2 & -> & Hi & Hx & _ & _ & _ & Hq & _ & Hp).
  exists eq2, t2, l2. split; [ reflexivity | ].
  vm_compute in G1. injection G1 as _ <- _.
  repeat split;
    first [ assumption | rewrite Hp; vm_compute; reflexivity ].
Defined.

(** ** The configuration normaliser *)

Lemma cfg_get_set_same (d : Config.dict) (k : string) (v : Config.value) :
  Config.get (Config.set d k v) k = Some v.
Proof.
  induction d as [| [k' v'] d IH]; simpl.
  - rewrite String.eqb_refl. reflexivity.
  - destruct (String.eqb k' k) eqn:E; simpl; rewrite E; [ reflexivity | exact IH ].
Qed.

Lemma cfg_get_set_other (d : Config.dict) (k k' : string) (v : Config.value) :
  k <> k' -> Config.get (Config.set d k v) k' = Config.get d k'.
Proof.
  intros Hne. induction d as [| [k0 v0] d IH]; simpl.
  - destruct (String.eqb k k') eqn:E; [ | reflexivity ].
    apply String.eqb_eq in E. contradiction.
  - destruct (String.eqb k0 k) eqn:E; simpl.
    + apply String.eqb_eq in E. subst k0.
      destruct (String.eqb k k') eqn:E'; [ | reflexivity ].
      apply String.eqb_eq in E'. contradiction.
    + rewrite IH. reflexivity.
Qed.

Lemma cfg_contains_get (d : Config.dict) (k : string) :
  Config.contains d k = false <-> Config.get d k = None.
Proof.
  unfold Config.contains. destruct (Config.get d k); split;
    congruence.
Qed.

(** The fee step touches no key but ["fee_pct"], and that one only when
    it is absent. *)
Lemma normalize_fee_other (d : Config.dict) (k : string) :
  k <> "fee_pct"%string ->
  Config.get (Config.normalize_fee d) k = Config.get d k.
Proof.
  intros Hne. unfold Config.normalize_fee.
  destruct (Config.contains d "fee_pct"); [ reflexivity | ].
  destruct (Config.first_present d Config.fee_synonyms); [ | reflexivity ].
  apply cfg_get_set_other. congruence.
Qed.

Lemma normalize_fee_fee (d : Config.dict) :
  Config.get (Config.normalize_fee d) "fee_pct" =
  Config.first_present d ("fee_pct" :: Config.fee_synonyms)%string.
Proof.
  unfold Config.normalize_fee, Config.contains.
  change (Config.first_present d ("fee_pct" :: Config.fee_synonyms)%string)
    with (match Config.get d "fee_pct" with
          | Some v => Some v
          | None => Config.first_present d Config.fee_synonyms
          end).
  destruct (Config.get d "fee_pct") as [v |] eqn:E; [ exact E | ].
  destruct (Config.first_present d Config.fee_synonyms) as [v |].
  - apply cfg_get_set_same.
  - exact E.
Qed.

(** Every normal outcome of the slippage step: the dict as it was, or
    with ["slippage_pct"] set where it was absent. *)
Lemma normalize_slippage_inv (d d' : Config.dict) :
  Config.normalize_slippage d = inr d' ->
  d' = d
  \/ (Config.get d "slippage_pct" = None
      /\ exists v, d' = Config.set d "slippage_pct" v).
Proof.
  unfold Config.normalize_slippage.
  destruct (Config.contains d "slippage_pct") eqn:Hc;
    [ intros [= <-]; left; reflexivity | ].
  apply cfg_contains_get in Hc.
  destruct (Config.get d "slippage_bp") as [v |].
  { destruct (Config.div_10000 v) as [e | q]; [ discriminate | ].
    intros [= <-]. right. split; [ exact Hc | ]. exists q. reflexivity. }
  destruct (Config.get d "slippage_bps") as [v |].
  { destruct (Config.div_10000 v) as [e | q]; [ discriminate | ].
    intros [= <-]. right. split; [ exact Hc | ]. exists q. reflexivity. }
  destruct (Config.get d "slippage") as [v |].
  - intros [= <-]. right. split; [ exact Hc | ]. exists v. reflexivity.
  - intros [= <-]. left. reflexivity.
Qed.

Lemma normalize_slippage_other (d d' : Config.dict) (k : string) :
  Config.normalize_slippage d = inr d' ->
  k <> "slippage_pct"%string ->
  Config.get d' k = Config.get d k.
Proof.
  intros H Hne.
  destruct (normalize_slippage_inv d d' H) as [-> | (_ & v & ->)];
    [ reflexivity | ].
  apply cfg_get_set_other. congruence.
Qed.

(** X11.  Normalising only adds: every key of the configuration keeps
    its value, so a ["fee_pct"] or ["slippage_pct"] that is given is never
    replaced by a synonym, and the only keys that can appear are
    ["fee_pct"] and ["slippage_pct"]. *)
Theorem normalize_only_adds (cfg : option Config.dict) (d' : Config.dict) :
  Config.normalize_fee_slippage cfg = inr d' ->
  let d := match cfg with Some d => d | None => [] end in
  (forall k v, Config.get d k = Some v -> Config.get d' k = Some v)
  /\ (forall k, Config.get d k = None ->
        k <> "fee_pct"%string -> k <> "slippage_pct"%string ->
        Config.get d' k = None).
Proof.
  intros H. cbv zeta. unfold Config.normalize_fee_slippage in H.
  cbv zeta in H. set (d := match cfg with Some d => d | None => [] end) in *.
  split.
  - intros k v Hk.
    assert (Hfee : Config.get (Config.normalize_fee d) k = Some v).
    { unfold Config.normalize_fee.
      destruct (Config.contains d "fee_pct") eqn:Hc; [ exact Hk | ].
      destruct (Config.first_present d Config.fee_synonyms); [ | exact Hk ].
      rewrite cfg_get_set_other; [ exact Hk | ].
      intros <-. apply cfg_contains_get in Hc. congruence. }
    destruct (normalize_slippage_inv _ _ H) as [-> | (Hn & q & ->)];
      [ exact Hfee | ].
    rewrite cfg_get_set_other; [ exact Hfee | ].
    intros <-. congruence.
  - intros k Hk Hf Hs.
    rewrite (normalize_slippage_other _ _ k H Hs).
    rewrite (normalize_fee_other d k Hf). exact Hk.
Qed.

(** X12.  The fee rate a normalised configuration carries under
    ["fee_pct"] is the value of the first key present among ["fee_pct"],
    ["fee_rate"], ["fee"], ["commission"], ["fees"], copied as it is; with
    none of them present there is no ["fee_pct"] key. *)
Theorem normalize_fee_precedence (cfg : option Config.dict) (d' : Config.dict) :
  Config.normalize_fee_slippage cfg = inr d' ->
  Config.get d' "fee_pct" =
  Config.first_present (match cfg with Some d => d | None => [] end)
    ["fee_pct"; "fee_rate"; "fee"; "commission"; "fees"]%string.
Proof.
  unfold Config.normalize_fee_slippage. intros H.
  rewrite (normalize_slippage_other _ _ "fee_pct"%string H) by discriminate.
  apply normalize_fee_fee.
Qed.

(** X13.  The slippage rate is resolved in this order: a given
    ["slippage_pct"] is kept; else ["slippage_bp"], else ["slippage_bps"],
    is divided by 10000; else ["slippage"] is copied; else no
    ["slippage_pct"] key is made.  The first of the two basis-point keys
    that is present decides alone: when the division of its value raises
    (a [str] or [None], [TypeError]; an [int] beyond the binary64 range,
    [OverflowError]) the call raises the same, even if a later key holds
    a usable rate; when its value is another object that the division
    accepts, the quotient is stored. *)
Theorem normalize_slippage_resolution (cfg : option Config.dict) :
  let d := match cfg with Some d => d | None => [] end in
  let kept v :=
    exists d', Config.normalize_fee_slippage cfg = inr d'
               /\ Config.get d' "slippage_pct" = Some v in
  let scaled v :=
    match v with
    | Config.VFloat x => kept (Config.VFloat (x / 10000))
    | Config.VInt z =>
        if is_infinity (Py.of_int z)
        then Config.normalize_fee_slippage cfg = inl Config.OverflowError
        else kept (Config.VFloat (Py.of_int z / 10000))
    | Config.VOther _ e => Config.normalize_fee_slippage cfg = inl e
    | Config.VQuot _ q => kept q
    end in
  match Config.get d "slippage_pct", Config.get d "slippage_bp",
        Config.get d "slippage_bps", Config.get d "slippage" with
  | Some v, _, _, _ => kept v
  | None, Some v, _, _ => scaled v
  | None, None, Some v, _ => scaled v
  | None, None, None, Some v => kept v
  | None, None, None, None =>
      exists d', Config.normalize_fee_slippage cfg = inr d'
                 /\ Config.get d' "slippage_pct" = None
  end.
Proof.
  intros d kept scaled. subst kept scaled. cbv beta.
  unfold Config.normalize_fee_slippage. cbv zeta. fold d.
  unfold Config.normalize_slippage, Config.contains.
  rewrite !(normalize_fee_other d) by discriminate.
  destruct (Config.get d "slippage_pct") as [v0 |] eqn:E0.
  { eexists. split; [ reflexivity | ].
    rewrite normalize_fee_other by discriminate. exact E0. }
  destruct (Config.get d "slippage_bp") as [v1 |] eqn:E1.
  { destruct v1 as [z | x | r e | r q]; simpl.
    - destruct (is_infinity (Py.of_int z)); [ reflexivity | ].
      eexists. split; [ reflexivity | apply cfg_get_set_same ].
    - eexists. split; [ reflexivity | apply cfg_get_set_same ].
    - reflexivity.
    - eexists. split; [ reflexivity | apply cfg_get_set_same ]. }
  destruct (Config.get d "slippage_bps") as [v2 |] eqn:E2.
  { destruct v2 as [z | x | r e | r q]; simpl.
    - destruct (is_infinity (Py.of_int z)); [ reflexivity | ].
      eexists. split; [ reflexivity | apply cfg_get_set_same ].
    - eexists. split; [ reflexivity | apply cfg_get_set_same ].
    - reflexivity.
    - eexists. split; [ reflexivity | apply cfg_get_set_same ]. }
  destruct (Config.get d "slippage") as [v3 |] eqn:E3.
  - eexists. split; [ reflexivity | apply cfg_get_set_same ].
  - eexists. split; [ reflexivity | ].
    rewrite normalize_fee_other by discriminate. exact E0.
Qed.

Lemma first_present_ext (d1 d2 : Config.dict) (ks : list string) :
  (forall k, In k ks -> Config.get d1 k = Config.get d2 k) ->
  Config.first_present d1 ks = Config.first_present d2 ks.
Proof.
  induction ks as [| k ks IH]; intros H; simpl; [ reflexivity | ].
  rewrite (H k (or_introl eq_refl)), IH; [ reflexivity | ].
  intros k' Hk'. apply H. right. exact Hk'.
Qed.

(** X14.  Normalising is idempotent: a configuration that came out of
    the function goes through it unchanged and without raising. *)
Theorem normalize_idempotent (cfg : option Config.dict) (d' : Config.dict) :
  Config.normalize_fee_slippage cfg = inr d' ->
  Config.normalize_fee_slippage (Some d') = inr d'.
Proof.
  unfold Config.normalize_fee_slippage. cbv zeta.
  set (d := match cfg with Some d => d | None => [] end). intros H.
  assert (Hfee : Config.normalize_fee d' = d').
  { unfold Config.normalize_fee, Config.contains.
    rewrite (normalize_slippage_other _ _ "fee_pct"%string H) by discriminate.
    rewrite normalize_fee_fee.
    change (Config.first_present d ("fee_pct" :: Config.fee_synonyms)%string)
      with (match Config.get d "fee_pct" with
            | Some v => Some v
            | None => Config.first_present d Config.fee_synonyms
            end).
    destruct (Config.get d "fee_pct") as [v |] eqn:E0; [ reflexivity | ].
    destruct (Config.first_present d Config.fee_synonyms) as [v |] eqn:E1;
      [ reflexivity | ].
    rewrite (first_present_ext d' d); [ rewrite E1; reflexivity | ].
    intros k Hk.
    assert (k <> "fee_pct"%string /\ k <> "slippage_pct"%string) as [Hf Hs].
    { simpl in Hk.
      destruct Hk as [<- | [<- | [<- | [<- | []]]]]; split; discriminate. }
    rewrite (normalize_slippage_other _ _ k H Hs).
    apply normalize_fee_other. exact Hf. }
  rewrite Hfee.
  destruct (normalize_slippage_inv _ _ H) as [-> | (_ & q & ->)].
  - exact H.
  - unfold Config.normalize_slippage, Config.contains.
    rewrite cfg_get_set_same. reflexivity.
Qed.

(** ** Worked runs for the further properties *)

Lemma balance_is_capital_plus_pnl_witness :
  reached gap_price gap_signal gap_atr 10000 0.5 1 1 0 0 2
          (mkState 15000 [10000; 15000] (Some (mkPosition 1 7500 101 101 100 102 1))
                   [mkTradeResult 0 1 1 100 101 5000 5000 0.5])
  /\ 15000 = fold_left (fun b t => b + pnl t)
                       [mkTradeResult 0 1 1 100 101 5000 5000 0.5] 10000.
Proof.
  assert (Hr : reached gap_price gap_signal gap_atr 10000 0.5 1 1 0 0 2
                 (mkState 15000 [10000; 15000]
                    (Some (mkPosition 1 7500 101 101 100 102 1))
                    [mkTradeResult 0 1 1 100 101 5000 5000 0.5])).
  { split; [ simpl; lia | vm_compute; reflexivity ]. }
  split; [ exact Hr | ].
  exact (proj1 (proj2 (balance_is_capital_plus_pnl gap_price gap_signal gap_atr
                         10000 0.5 1 1 0 0)) 2%nat _ Hr).
Defined.

Lemma every_trade_well_formed_witness :
  gap_run 0 = Py.Ok (gap_equity, gap_trades)
  /\ forall t, In t gap_trades ->
       (side t = 1%Z \/ side t = (-1)%Z) /\ (0 <? qty t) = true.
Proof.
  split; [ exact gap_run_free | ]. intros t Hin.
  destruct (every_trade_well_formed gap_price gap_signal gap_atr 10000 0.5 1 1
              0 0 gap_equity gap_trades gap_run_free t Hin)
    as (Hs & _ & Hq & _).
  split; assumption.
Defined.

Lemma trades_fewer_than_bars_witness :
  gap_run 0 = Py.Ok (gap_equity, gap_trades)
  /\ (length gap_trades <= length gap_price - 1)%nat.
Proof.
  split; [ exact gap_run_free | ].
  exact (proj2 (proj2 (trades_fewer_than_bars gap_price gap_signal gap_atr
                         10000 0.5 1 1 0 0 gap_equity gap_trades
                         gap_run_free))).
Defined.

(** An all-zero signal against a frame whose volatility column is empty. *)
Lemma zero_signal_run_is_flat_witness :
  backtest gap_price [0; 0; 0]%Z (Some []) 10000 0.5 1 1 0 0
  = Py.Ok ([10000; 10000; 10000], []).
Proof.
  apply (proj1 (zero_signal_run_is_flat gap_price [0; 0; 0]%Z (Some [])
                  10000 0.5 1 1 0 0
                  ltac:(repeat constructor))).
  simpl. lia.
Defined.

(** The signals of the three-bar run against a frame with no ["atr"]
    column. *)
Lemma no_volatility_no_trades_witness :
  backtest gap_price gap_signal None 10000 0.5 1 1 0 0
  = Py.Ok ([10000; 10000; 10000], []).
Proof.
  apply (no_volatility_no_trades gap_price gap_signal None 10000 0.5 1 1 0 0).
  - simpl. lia.
  - left. reflexivity.
Defined.

(** The position of the three-bar run held over two quiet bars, with an
    empty signal series and no volatility column. *)
Lemma held_position_reads_no_signal_witness :
  loop [] [] None 10000 0.5 1 1 0 0 1 [100.5; 100.25] gap_bar1
  = Py.Ok (mkState 10000 [10000; 12500; 11250] (Some gap_pos) []).
Proof.
  rewrite (held_position_reads_no_signal [] [] None 10000 0.5 1 1 0 0
             [100.5; 100.25] 1 gap_bar1 gap_pos eq_refl).
  - vm_compute. reflexivity.
  - repeat constructor.
Defined.

(** A signal of 2 on bar 0. *)
Lemma other_signal_never_closed_witness :
  exists st' pos,
    loop_body [100; 101] [2; 0]%Z (Some [1; 1]) 10000 0.5 1 1 0 0 0 100
              (init_state 10000) = Py.Ok st'
    /\ position st' = Some pos /\ pos_side pos = 2%Z
    /\ exists st'',
         loop [100; 101] [2; 0]%Z (Some [1; 1]) 10000 0.5 1 1 0 0 1 [101] st'
         = Py.Ok st''
         /\ position st'' = Some pos /\ trades st'' = [].
Proof.
  destruct (other_signal_never_closed [100; 101] [2; 0]%Z (Some [1; 1])
              10000 0.5 1 1 0 0 0 100 (init_state 10000) 2%Z 1
              eq_refl eq_refl ltac:(lia) ltac:(discriminate) ltac:(discriminate)
              ltac:(discriminate) eq_refl
              ltac:(vm_compute; reflexivity) ltac:(vm_compute; reflexivity))
    as (st' & pos & Hb & Hp & Hs & _ & Hrest).
  exists st', pos. split; [ exact Hb | split; [ exact Hp | split; [ exact Hs | ] ] ].
  destruct (Hrest [101]) as (st'' & Hl & Hp' & Ht & _).
  exists st''. split; [ exact Hl | split; [ exact Hp' | exact Ht ] ].
Defined.

(** A NaN close on bar 0, where the signal is 1. *)
Lemma nan_close_never_exits_witness :
  exists st' pos,
    loop_body [nan; 100; 101] [1; 0]%Z (Some [1; 1; 1]) 10000 0.5 1 1 0 0 0 nan
              (init_state 10000) = Py.Ok st'
    /\ position st' = Some pos
    /\ loop [nan; 100; 101] [1; 0]%Z (Some [1; 1; 1]) 10000 0.5 1 1 0 0 1
            [100; 101] st'
       = Py.Ok (mkState 10000 [10000; nan; nan] (Some pos) []).
Proof.
  assert (Hb : loop_body [nan; 100; 101] [1; 0]%Z (Some [1; 1; 1]) 10000 0.5
                 1 1 0 0 0 nan (init_state 10000)
               = Py.Ok (mkState 10000 [10000]
                          (Some (mkPosition 1 5000 nan nan nan nan 0)) []))
    by (vm_compute; reflexivity).
  do 2 eexists. split; [ exact Hb | split; [ reflexivity | ] ].
  destruct (proj2 (nan_close_never_exits [nan; 100; 101] [1; 0]%Z
                     (Some [1; 1; 1]) 10000 0.5 1 1 0 0)
              0%nat (init_state 10000) _ _ eq_refl Hb eq_refl)
    as (_ & _ & _ & Hrest).
  rewrite (Hrest 1%nat [100; 101]). reflexivity.
Defined.

Lemma no_look_ahead_witness :
  exists trs_k later,
    backtest [100; 101] gap_signal gap_atr 10000 0.5 1 1 0 0
    = Py.Ok ([10000; 15000], trs_k)
    /\ gap_trades = trs_k ++ later.
Proof.
  exact (no_look_ahead gap_signal gap_atr 10000 0.5 1 1 0 0 gap_price 2
           gap_equity gap_trades ltac:(simpl; lia) gap_run_free).
Defined.

(** A configuration that names its fee ["fee"] and its slippage in basis
    points. *)
Lemma normalize_fee_slippage_example :
  Config.normalize_fee_slippage
    (Some [("fee"%string, Config.VFloat 0.001);
           ("slippage_bps"%string, Config.VInt 5)])
  = inr [("fee"%string, Config.VFloat 0.001);
         ("slippage_bps"%string, Config.VInt 5);
         ("fee_pct"%string, Config.VFloat 0.001);
         ("slippage_pct"%string, Config.VFloat (5 / 10000))].
Proof. vm_compute. reflexivity. Qed.

Lemma normalize_only_adds_witness :
  exists d',
    Config.normalize_fee_slippage
      (Some [("fee"%string, Config.VFloat 0.001);
             ("slippage_bps"%string, Config.VInt 5)]) = inr d'
    /\ Config.get d' "fee" = Some (Config.VFloat 0.001)
    /\ Config.get d' "dataset" = None.
Proof.
  eexists. split; [ exact normalize_fee_slippage_example | ].
  pose proof (normalize_only_adds _ _ normalize_fee_slippage_example)
    as [Hkeep Hnew].
  split.
  - apply Hkeep. reflexivity.
  - apply Hnew; [ reflexivity | discriminate | discriminate ].
Defined.

Lemma normalize_fee_precedence_witness :
  exists d',
    Config.normalize_fee_slippage
      (Some [("fee"%string, Config.VFloat 0.001);
             ("slippage_bps"%string, Config.VInt 5)]) = inr d'
    /\ Config.get d' "fee_pct" = Some (Config.VFloat 0.001).
Proof.
  eexists. split; [ exact normalize_fee_slippage_example | ].
  rewrite (normalize_fee_precedence _ _ normalize_fee_slippage_example).
  reflexivity.
Defined.

(** A ["slippage_bp"] of 5 basis points is scaled although ["slippage"]
    holds another rate; one that holds [None] raises; one that holds the
    fraction 1/2 is divided as a [Fraction] is. *)
Lemma normalize_slippage_resolution_witness :
  (exists d',
      Config.normalize_fee_slippage
        (Some [("slippage_bp"%string, Config.VInt 5);
               ("slippage"%string, Config.VFloat 0.5)]) = inr d'
      /\ Config.get d' "slippage_pct" = Some (Config.VFloat (5 / 10000)))
  /\ Config.normalize_fee_slippage
       (Some [("slippage_bp"%string,
               Config.VOther "None" Config.TypeError);
              ("slippage"%string, Config.VFloat 0.5)])
     = inl Config.TypeError
  /\ (exists d',
      Config.normalize_fee_slippage
        (Some [("slippage_bps"%string,
                Config.VQuot "Fraction(1, 2)"
                             (Config.VFloat (0.5 / 10000)))]) = inr d'
      /\ Config.get d' "slippage_pct" = Some (Config.VFloat (0.5 / 10000))).
Proof.
  split; [ | split ].
  - exact (normalize_slippage_resolution
             (Some [("slippage_bp"%string, Config.VInt 5);
                    ("slippage"%string, Config.VFloat 0.5)])).
  - exact (normalize_slippage_resolution
             (Some [("slippage_bp"%string,
                     Config.VOther "None" Config.TypeError);
                    ("slippage"%string, Config.VFloat 0.5)])).
  - exact (normalize_slippage_resolution
             (Some [("slippage_bps"%string,
                     Config.VQuot "Fraction(1, 2)"
                                  (Config.VFloat (0.5 / 10000)))])).
Defined.

Lemma normalize_idempotent_witness :
  exists d',
    Config.normalize_fee_slippage
      (Some [("fee"%string, Config.VFloat 0.001);
             ("slippage_bps"%string, Config.VInt 5)]) = inr d'
    /\ Config.normalize_fee_slippage (Some d') = inr d'.
Proof.
  eexists. split; [ exact normalize_fee_slippage_example | ].
  exact (normalize_idempotent _ _ normalize_fee_slippage_example).
Defined.

(** ** A stop multiplier of zero *)

(** Nothing that is a product with zero is above the sizer's floor. *)
Lemma floor_beats_zero_product (a : float) : (1e-8 <? a * 0) = false.
Proof.
  rewrite ltb_spec, mul_spec.
  destruct (Prim2SF a) as [s | s | | s m e]; vm_compute; reflexivity.
Qed.

(** X15.  With a stop multiplier of zero, which is what [run_once] passes
    when the configuration names none, the volatility plays no part in the
    size: the risk per unit is the floor [1e-8] and the quantity is
    [max(0, balance * risk_per_trade / 1e-8)], for every volatility and
    price. *)
Theorem sizer_zero_stop_mult (balance risk a p : float) :
  atr_position_size balance risk a p 0 = Py.max 0 (balance * risk / 1e-8).
Proof.
  unfold atr_position_size. cbv zeta.
  unfold Py.max at 2. rewrite floor_beats_zero_product. reflexivity.
Qed.
